(** * tachyon-infra: migration engine and release manifest

    A shallow embedding of
      - server/database/connection.ts  (PostgreSQLManager),
      - server/database/migrate.ts     (ConfigurationLoader, SafetyCheck,
                                        DatabaseMigrator),
      - server/database/migrations     (the MIGRATIONS catalog),
      - scripts/create-release.sh      (the release manifest writer),
    followed by the properties of the migration engine, the confirmation
    gate, the environment context and the release manifest.

    The asynchronous TypeScript code awaits every promise it creates, so a
    run is one sequential thread; it is embedded in a state-and-exception
    monad over an explicit [World]. *)

From stdpp Require Import base strings list gmap.
From Stdlib Require Import ZArith NArith Ascii String Lia.


(** ** Collaborators outside the repository

    The SQL engine that runs a migration script, the SHA-256 digest of
    node's crypto module and the file system read by [readFileSync] are
    not code of this repository.  They are the fields of one interface. *)
Class Platform := {
  (** the user tables of the database, as the SQL engine sees them *)
  Schema : Type;
  (** running a script on the working state: the state it leaves (a failing
      script may leave earlier statements applied) and whether it succeeded *)
  run_sql : string -> Schema -> Schema * bool;
  (** a script may hold transaction control of its own (COMMIT, ROLLBACK,
      END).  [None]: it leaves the transaction it is sent in open.
      [Some d]: it ends that transaction, and [d] is the state that a
      ROLLBACK sent after the script returns to: what the script has made
      durable, which is the state it leaves when the session is idle
      afterwards *)
  rollback_point : string -> Schema -> option Schema;
  (** crypto.createHash("sha256").update(content).digest("hex") *)
  sha256_hex : string -> string;
  (** readFileSync(path, "utf8"); [None] when the read throws *)
  readFileSync : string -> option string;
}.

(** ** Errors thrown by the embedded code and by the database client *)
Inductive Error :=
| PoolNotInitialized                      (* "PostgreSQL pool not initialized" *)
| ConnectionError                         (* pg: the server cannot be reached *)
| UndefinedTable (relation : string)      (* pg: relation does not exist *)
| UniqueViolation (column : string)       (* pg: duplicate key *)
| ValueTooLong (column : string)          (* pg: value too long for VARCHAR(n) *)
| ScriptError (content : string)          (* pg: a statement of the script failed *)
| UndefinedColumn (relation : string)     (* pg: INSERT names a missing column *)
| FileNotFound (path : string)            (* readFileSync threw *)
| DatabaseUnhealthy                       (* "Database connection unhealthy" *)
| ChecksumMismatch (version existing computed : string)
                                          (* "... checksum mismatch! ..." *)
| MigrationEnvNotSet                      (* "MIGRATION_ENV not set. ..." *)
| InvalidMigrationEnv (env : string)      (* "Invalid MIGRATION_ENV: ..." *)
| TypeErrorUndefined (property : string)  (* reading a property of undefined *)
| UnsupportedEnvironment (env : string).  (* "Unsupported environment: ..." *)

(** A computation returns, throws, or ends the process ([process.exit]). *)
Inductive Outcome (A : Type) :=
| Ok (a : A)
| Throw (e : Error)
| Exit (code : Z).
Arguments Ok {A} a.
Arguments Throw {A} e.
Arguments Exit {A} code.

(** ** The tracking table and the observable events *)

(** One row of schema_migrations (the SERIAL id is never read by the code). *)
Record MigrationRecord := {
  r_version : string;
  r_description : string;
  r_applied_at : Z;
  r_checksum : string;
  r_environment : string;
}.

(** One row written by [logAuditEvent]. *)
Record AuditEvent := {
  a_event_type : string;
  a_details : string;
}.

(** The audit_events relation as the pool's own queries find it. *)
Inductive AuditTable :=
| AuditAbsent                          (* no such table: the EXISTS check is false *)
| AuditIncompatible                    (* table exists, the INSERT fails *)
| AuditRows (rows : list AuditEvent).  (* table exists, the INSERT appends *)

(** Statements sent on the checked-out client and console lines of the
    migrator, in the order in which they happen. *)
Inductive Event :=
| EvBegin
| EvCommit
| EvRollback
| EvScript (content : string)            (* client.query(sqlContent) *)
| EvInsert (version : string)            (* INSERT INTO schema_migrations *)
| LogProcessing (version : string)       (* "Processing migration ..." *)
| LogAlreadyApplied (version : string)   (* "Migration ... already applied ..." *)
| LogApplied (version : string)          (* "Applied migration ..." *)
| LogComplete (appliedCount : nat)       (* "Migration complete! Applied n ..." *)
| LogMigrationFailed (e : Error)         (* "Migration failed:" error *)
| LogStatusFailed (e : Error).           (* "Failed to check migration status:" *)

Section World.
Context `{P : Platform}.

(** The tables a transaction of the client can change. *)
Record Store := {
  schema : Schema;
  (** schema_migrations; [None] before CREATE TABLE IF NOT EXISTS *)
  schema_migrations : option (list MigrationRecord);
}.

Record World := {
  server_up : bool;            (* the server accepts connections *)
  db : Store;                  (* what the checked-out client sees *)
  snapshot : option Store;     (* the state BEGIN would roll back to *)
  audit_events : AuditTable;   (* written through the pool, autocommitted *)
  pool : bool;                 (* this.pool !== null *)
  leased : nat;                (* clients checked out and not released *)
  now : Z;                     (* NOW() *)
  trace : list Event;
}.

Definition set_db (f : Store -> Store) (w : World) : World :=
  {| server_up := server_up w; db := f (db w); snapshot := snapshot w;
     audit_events := audit_events w; pool := pool w; leased := leased w;
     now := now w; trace := trace w |}.
Definition set_snapshot (s : option Store) (w : World) : World :=
  {| server_up := server_up w; db := db w; snapshot := s;
     audit_events := audit_events w; pool := pool w; leased := leased w;
     now := now w; trace := trace w |}.
Definition set_audit_events (a : AuditTable) (w : World) : World :=
  {| server_up := server_up w; db := db w; snapshot := snapshot w;
     audit_events := a; pool := pool w; leased := leased w;
     now := now w; trace := trace w |}.
Definition set_pool (b : bool) (w : World) : World :=
  {| server_up := server_up w; db := db w; snapshot := snapshot w;
     audit_events := audit_events w; pool := b; leased := leased w;
     now := now w; trace := trace w |}.
Definition set_leased (n : nat) (w : World) : World :=
  {| server_up := server_up w; db := db w; snapshot := snapshot w;
     audit_events := audit_events w; pool := pool w; leased := n;
     now := now w; trace := trace w |}.
Definition emit (e : Event) (w : World) : World :=
  {| server_up := server_up w; db := db w; snapshot := snapshot w;
     audit_events := audit_events w; pool := pool w; leased := leased w;
     now := now w; trace := trace w ++ [e] |}.

(** *** The monad *)
Definition M (A : Type) : Type := World -> Outcome A * World.

Definition ret {A} (a : A) : M A := fun w => (Ok a, w).
Definition bind {A B} (m : M A) (k : A -> M B) : M B :=
  fun w => match m w with
           | (Ok a, w') => k a w'
           | (Throw e, w') => (Throw e, w')
           | (Exit c, w') => (Exit c, w')
           end.
Definition throw {A} (e : Error) : M A := fun w => (Throw e, w).
(** process.exit(code): nothing after it runs, not even a finally block *)
Definition process_exit {A} (code : Z) : M A := fun w => (Exit code, w).
(** try { m } catch (error) { handler error } *)
Definition try_catch {A} (m : M A) (handler : Error -> M A) : M A :=
  fun w => match m w with
           | (Throw e, w') => handler e w'
           | r => r
           end.
(** try { m } finally { cleanup } *)
Definition try_finally {A} (m : M A) (cleanup : M unit) : M A :=
  fun w => match m w with
           | (Exit c, w') => (Exit c, w')
           | (r, w') => match cleanup w' with
                        | (Ok _, w'') => (r, w'')
                        | (Throw e, w'') => (Throw e, w'')
                        | (Exit c, w'') => (Exit c, w'')
                        end
           end.
Definition get {A} (f : World -> A) : M A := fun w => (Ok (f w), w).
Definition modify (f : World -> World) : M unit := fun w => (Ok tt, f w).
Definition console (e : Event) : M unit := modify (emit e).
End World.

Declare Scope js_scope.
Delimit Scope js_scope with js.
Notation "x <- m ;; k" := (bind m (fun x => k))
  (at level 100, m at next level, k at level 200, right associativity) : js_scope.
Notation "m ;; k" := (bind m (fun _ => k))
  (at level 100, k at level 200, right associativity) : js_scope.
Open Scope js_scope.

(** ** The pg client and pool, as far as the code uses them *)

(** The server is the single-runner store of the migration engine: one
    client is checked out at a time and it sees [db]; BEGIN remembers the
    state that ROLLBACK restores.  The audit_events relation is written
    through the pool on connections of its own, outside any transaction of
    the client.  A migration script acts on the user tables and may end
    the transaction it is sent in; schema_migrations is the table of the
    migrator alone.  Strings are
    sequences of characters of one byte, so that VARCHAR(n) bounds the
    length of the string and ORDER BY compares character codes. *)
Section PgDriver.
Context `{P : Platform}.

(** pool.connect() *)
Definition pool_connect : M unit :=
  fun w => if server_up w then (Ok tt, set_leased (S (leased w)) w)
           else (Throw ConnectionError, w).

(** client.release() *)
Definition client_release : M unit :=
  modify (fun w => set_leased (Nat.pred (leased w)) w).

(** client.query("BEGIN") *)
Definition client_begin : M unit :=
  modify (fun w =>
    emit EvBegin
      (match snapshot w with
       | None => set_snapshot (Some (db w)) w
       | Some _ => w
       end)).

(** client.query("COMMIT") *)
Definition client_commit : M unit :=
  modify (fun w => emit EvCommit (set_snapshot None w)).

(** client.query("ROLLBACK") *)
Definition client_rollback : M unit :=
  modify (fun w =>
    emit EvRollback
      (match snapshot w with
       | None => w
       | Some s => set_snapshot None (set_db (fun _ => s) w)
       end)).

(** SELECT 1 as health_check *)
Definition client_select_1 : M unit := ret tt.

(** CREATE TABLE IF NOT EXISTS schema_migrations (...);
    CREATE INDEX IF NOT EXISTS ... *)
Definition client_create_migrations_table : M unit :=
  modify (set_db (fun s =>
    {| schema := schema s;
       schema_migrations := match schema_migrations s with
                            | None => Some []
                            | Some rows => Some rows
                            end |})).

(** SELECT checksum, environment FROM schema_migrations WHERE version = $1 *)
Definition client_select_migration (version : string) : M (list MigrationRecord) :=
  fun w => match schema_migrations (db w) with
           | None => (Throw (UndefinedTable "schema_migrations"), w)
           | Some rows =>
               (Ok (List.filter (fun r => String.eqb (r_version r) version) rows), w)
           end.

(** ORDER BY version, by insertion into a sorted list *)
Fixpoint insert_by_version (r : MigrationRecord) (rows : list MigrationRecord)
  : list MigrationRecord :=
  match rows with
  | [] => [r]
  | r' :: rest =>
      if String.leb (r_version r) (r_version r') then r :: r' :: rest
      else r' :: insert_by_version r rest
  end.
Definition order_by_version (rows : list MigrationRecord) : list MigrationRecord :=
  List.fold_right insert_by_version [] rows.

(** SELECT version, description, applied_at, environment
    FROM schema_migrations ORDER BY version *)
Definition client_select_all_migrations : M (list MigrationRecord) :=
  fun w => match schema_migrations (db w) with
           | None => (Throw (UndefinedTable "schema_migrations"), w)
           | Some rows => (Ok (order_by_version rows), w)
           end.

(** The column constraints of the CREATE TABLE statement:
    version VARCHAR(50) UNIQUE, checksum VARCHAR(64), environment VARCHAR(20). *)
Definition insert_violation (r : MigrationRecord) (rows : list MigrationRecord)
  : option Error :=
  if Nat.ltb 50 (String.length (r_version r)) then Some (ValueTooLong "version")
  else if Nat.ltb 64 (String.length (r_checksum r)) then Some (ValueTooLong "checksum")
  else if Nat.ltb 20 (String.length (r_environment r)) then Some (ValueTooLong "environment")
  else if existsb (fun r' => String.eqb (r_version r') (r_version r)) rows
       then Some (UniqueViolation "version")
  else None.

(** INSERT INTO schema_migrations (version, description, checksum, environment)
    VALUES ($1, $2, $3, $4); applied_at takes its default NOW() *)
Definition client_insert_migration (version description checksum environment : string)
  : M unit :=
  fun w =>
    let w := emit (EvInsert version) w in
    match schema_migrations (db w) with
    | None => (Throw (UndefinedTable "schema_migrations"), w)
    | Some rows =>
        let r := {| r_version := version; r_description := description;
                    r_applied_at := now w; r_checksum := checksum;
                    r_environment := environment |} in
        match insert_violation r rows with
        | Some e => (Throw e, w)
        | None =>
            (Ok tt, set_db (fun s => {| schema := schema s;
                                        schema_migrations := Some (rows ++ [r]) |}) w)
        end
    end.

(** client.query(sqlContent): the migration script.  Inside a transaction
    a script that ends the transaction moves the state that ROLLBACK
    restores; the tracking table is not among the tables of the script. *)
Definition client_script (content : string) : M unit :=
  fun w =>
    let w := emit (EvScript content) w in
    let '(s', ok) := run_sql content (schema (db w)) in
    let w' := set_db (fun s => {| schema := s';
                                  schema_migrations := schema_migrations s |}) w in
    let w' := match snapshot w, rollback_point content (schema (db w)) with
              | Some _, Some d =>
                  set_snapshot (Some {| schema := d;
                                        schema_migrations := schema_migrations (db w) |}) w'
              | _, _ => w'
              end in
    if ok then (Ok tt, w') else (Throw (ScriptError content), w').

(** pool.query(`SELECT EXISTS (SELECT FROM information_schema.tables
    WHERE table_schema = 'public' AND table_name = 'audit_events')`),
    read as tableCheck.rows[0]?.exists *)
Definition pool_audit_table_exists : M bool :=
  fun w => if server_up w
           then (Ok (match audit_events w with
                     | AuditAbsent => false
                     | _ => true
                     end), w)
           else (Throw ConnectionError, w).

(** pool.query(`INSERT INTO audit_events (...) VALUES (...)`, [...]) *)
Definition pool_insert_audit (ev : AuditEvent) : M unit :=
  fun w => if server_up w
           then match audit_events w with
                | AuditAbsent => (Throw (UndefinedTable "audit_events"), w)
                | AuditIncompatible => (Throw (UndefinedColumn "audit_events"), w)
                | AuditRows rows => (Ok tt, set_audit_events (AuditRows (rows ++ [ev])) w)
                end
           else (Throw ConnectionError, w).
End PgDriver.

(** ** connection.ts: class PostgreSQLManager *)
Module PostgreSQLManager.
Section Manager.
Context `{P : Platform}.

(** text.substring(0, 100) *)
Definition substring_0_100 (text : string) : string := String.substring 0 100 text.

Definition logAuditEvent (eventType details : string) : M unit :=
  try_catch
    (p <- get pool;;
     if p then
       tableCheck <- pool_audit_table_exists;;
       if negb tableCheck then ret tt
       else pool_insert_audit {| a_event_type := eventType; a_details := details |}
     else ret tt)
    (fun _ => ret tt).

Definition getConnection : M unit :=
  p <- get pool;;
  if negb p then throw PoolNotInitialized
  else
    try_catch
      (pool_connect;;
       logAuditEvent "data_access" "Connection acquired")
      (fun error => throw error).

(** query(text, params): [stmt] is what client.query(text, params) does *)
Definition query {A} (text : string) (stmt : M A) : M A :=
  getConnection;;
  try_finally
    (try_catch
       (logAuditEvent "data_access" ("Query: " +:+ substring_0_100 text +:+ "...");;
        result <- stmt;;
        ret result)
       (fun error => throw error))
    client_release.

Definition transaction {A} (callback : M A) : M A :=
  getConnection;;
  try_finally
    (try_catch
       (client_begin;;
        logAuditEvent "data_access" "Transaction started";;
        result <- callback;;
        client_commit;;
        logAuditEvent "data_access" "Transaction committed";;
        ret result)
       (fun error => client_rollback;; throw error))
    client_release.

(** the latency of the reply is not modelled *)
Definition healthCheck : M bool :=
  try_catch
    (query "SELECT 1 as health_check" client_select_1;;
     ret true)
    (fun _ => ret false).

Definition close : M unit :=
  p <- get pool;;
  if p then modify (set_pool false) else ret tt.
End Manager.
End PostgreSQLManager.

(** ** migrations/index.ts: the catalog *)
Module migrations.
Record MigrationFile := {
  filename : string;
  version : string;
  description : string;
  path : string;
}.

(** path.join(__dirname, name), for a directory and a plain file name *)
Definition join (dirname name : string) : string := dirname +:+ "/" +:+ name.

Definition MIGRATIONS (__dirname : string) : list MigrationFile :=
  [ {| filename := "001_initial_schema.sql";
       version := "001";
       description := "Initial APPI compliant schema with encrypted PII fields";
       path := join __dirname "001_initial_schema.sql" |} ].
End migrations.
Export migrations.

(** ** migrate.ts *)

Record EnvironmentConfig := {
  name : string;
  envFile : string;
  requiresConfirmation : bool;
  confirmationKeyword : string;
  env_description : string;
}.

Record DatabaseConfig := {
  host : string;
  port : option Z;            (* a number; [None] is NaN *)
  database : string;
  user : string;
  password : string;
  ssl : bool;
  sslRejectUnauthorized : bool;
}.

Record MigrationContext := {
  environment : string;
  config : EnvironmentConfig;
  dbConfig : DatabaseConfig;
  isCI : bool;
  autoConfirm : bool;
}.

(** const ENVIRONMENT_CONFIGS: the entries dev and prod are commented out *)
Definition ENVIRONMENT_CONFIGS : gmap string EnvironmentConfig :=
  {[ "local" := {| name := "local";
                   envFile := ".env.local";
                   requiresConfirmation := false;
                   confirmationKeyword := "yes";
                   env_description := "Local Docker PostgreSQL (Safe)" |} ]}.

(** What the loader needs from node: the global parseInt and the env files
    that dotenv reads (the parsed file at `${__dirname}/../${envFile}`,
    [None] when existsSync is false). *)
Class Node := {
  parseInt : string -> option Z;
  env_file : string -> option (gmap string string);
}.

Module ConfigurationLoader.
Section Loader.
Context `{Nd : Node}.

(** process.env.NAME || fallback: an unset or empty variable is falsy *)
Definition env_or (env : gmap string string) (var fallback : string) : string :=
  match env !! var with
  | Some v => if String.eqb v "" then fallback else v
  | None => fallback
  end.

(** process.env.NAME === "true" *)
Definition env_is_true (env : gmap string string) (var : string) : bool :=
  match env !! var with
  | Some v => String.eqb v "true"
  | None => false
  end.

(** ["local", "dev", "prod"].includes(env) *)
Definition includes (l : list string) (s : string) : bool :=
  existsb (String.eqb s) l.

Definition detectEnvironment (env : gmap string string) : Error + string :=
  match env !! "MIGRATION_ENV" with
  | None => inl MigrationEnvNotSet
  | Some e =>
      if String.eqb e "" then inl MigrationEnvNotSet
      else if negb (includes ["local"; "dev"; "prod"] e)
           then inl (InvalidMigrationEnv e)
      else inr e
  end.

(** dotenv sets the variables of the file that process.env does not have *)
Definition loadEnvironmentFile (envFile : string) (env : gmap string string)
  : gmap string string :=
  match env_file envFile with
  | Some vars => env ∪ vars
  | None => env
  end.

Definition loadLocalConfig (env : gmap string string) : DatabaseConfig :=
  {| host := env_or env "POSTGRES_HOST" "localhost";
     port := parseInt (env_or env "POSTGRES_PORT" "5432");
     database := env_or env "POSTGRES_DB" "tacyhon_dev";
     user := env_or env "POSTGRES_USER" "tachyon_dev";
     password := env_or env "POSTGRES_PASSWORD" "dev_password";
     ssl := false;
     sslRejectUnauthorized := false |}.

(** Returns the context and process.env as the loader leaves it. *)
Definition buildContext (env : gmap string string)
  : Error + (MigrationContext * gmap string string) :=
  match detectEnvironment env with
  | inl e => inl e
  | inr environment =>
      match ENVIRONMENT_CONFIGS !! environment with
      | None => inl (TypeErrorUndefined "description")   (* config.description *)
      | Some config =>
          let env := loadEnvironmentFile (envFile config) env in
          if String.eqb environment "local" then
            let dbConfig := loadLocalConfig env in
            inr ({| environment := environment;
                    config := config;
                    dbConfig := dbConfig;
                    isCI := env_is_true env "CI";
                    autoConfirm := env_is_true env "AUTO_CONFIRM" |}, env)
          else inl (UnsupportedEnvironment environment)
      end
  end.
End Loader.
End ConfigurationLoader.

Module SafetyCheck.
(** A line typed by the operator is a sequence of UTF-16 code units. *)
Definition code_units (s : string) : list N :=
  List.map N_of_ascii (list_ascii_of_string s).

(** WhiteSpace and LineTerminator of ECMAScript, which
    String.prototype.trim removes *)
Definition is_white_space (c : N) : bool :=
  (N.leb 9 c && N.leb c 13) || N.eqb c 32 || N.eqb c 160 || N.eqb c 5760
  || (N.leb 8192 c && N.leb c 8202) || N.eqb c 8232 || N.eqb c 8233
  || N.eqb c 8239 || N.eqb c 8287 || N.eqb c 12288 || N.eqb c 65279.

Fixpoint trim_start (s : list N) : list N :=
  match s with
  | c :: rest => if is_white_space c then trim_start rest else s
  | [] => []
  end.
Definition trim_end (s : list N) : list N := rev (trim_start (rev s)).
Definition trim (s : list N) : list N := trim_end (trim_start s).

(** answer.trim() === keyword *)
Definition strict_eq (a b : list N) : bool := bool_decide (a = b).

(** [stdin] holds the lines the operator will type.  The result is the
    value the promise resolves to ([None]: the question is never
    answered) and the lines left unread. *)
Definition promptConfirmation (context : MigrationContext) (stdin : list (list N))
  : option bool * list (list N) :=
  if isCI context || autoConfirm context then (Some true, stdin)
  else if negb (requiresConfirmation (config context)) then (Some true, stdin)
  else
    let keyword := code_units (confirmationKeyword (config context)) in
    match stdin with
    | answer :: rest => (Some (strict_eq (trim answer) keyword), rest)
    | [] => (None, [])
    end.
End SafetyCheck.

Module DatabaseMigrator.
Section Migrator.
Context `{P : Platform}.
(** this.context, and the imported MIGRATIONS binding *)
Variable context : MigrationContext.
Variable MIGRATIONS : list MigrationFile.

Import PostgreSQLManager.

(** The constructor copies dbConfig into process.env and creates the
    manager, whose pool is then open with no client checked out. *)
Definition constructor (w : World) : World := set_leased 0 (set_pool true w).

Definition getMigrationFiles : list MigrationFile := MIGRATIONS.

Definition createTableQuery : string :=
  "
      CREATE TABLE IF NOT EXISTS schema_migrations (
        id SERIAL PRIMARY KEY,
        version VARCHAR(50) UNIQUE NOT NULL,
        description TEXT NOT NULL,
        applied_at TIMESTAMPTZ DEFAULT NOW(),
        checksum VARCHAR(64) NOT NULL,
        environment VARCHAR(20) NOT NULL
      );

      CREATE INDEX IF NOT EXISTS idx_schema_migrations_version ON schema_migrations(version);
    ".

Definition createMigrationsTable : M unit :=
  query createTableQuery client_create_migrations_table.

Definition generateChecksum (content : string) : string := sha256_hex content.

(** { applied: true, checksum, environment } is [Some (checksum, environment)],
    { applied: false } is [None] *)
Definition isMigrationApplied (version : string) : M (option (string * string)) :=
  result <- query "SELECT checksum, environment FROM schema_migrations WHERE version = $1"
                  (client_select_migration version);;
  match result with
  | row :: _ => ret (Some (r_checksum row, r_environment row))
  | [] => ret None
  end.

Definition readFile (path : string) : M string :=
  match readFileSync path with
  | Some content => ret content
  | None => throw (FileNotFound path)
  end.

Definition applyMigration (migration : MigrationFile) : M unit :=
  console (LogProcessing (version migration));;
  sqlContent <- readFile (path migration);;
  let checksum := generateChecksum sqlContent in
  applied <- isMigrationApplied (version migration);;
  match applied with
  | Some (existingChecksum, _) =>
      if String.eqb existingChecksum checksum then
        console (LogAlreadyApplied (version migration))
      else
        throw (ChecksumMismatch (version migration) existingChecksum checksum)
  | None =>
      transaction
        (try_catch
           (client_script sqlContent;;
            client_insert_migration (version migration) (description migration)
                                    checksum (environment context);;
            console (LogApplied (version migration)))
           (fun error => throw error))
  end.

(** the body of `for (const migration of migrations)` with its counter *)
Fixpoint migrate_loop (migrations : list MigrationFile) (appliedCount : nat) : M nat :=
  match migrations with
  | [] => ret appliedCount
  | migration :: rest =>
      wasApplied <- isMigrationApplied (version migration);;
      applyMigration migration;;
      migrate_loop rest (match wasApplied with
                         | None => S appliedCount
                         | Some _ => appliedCount
                         end)
  end.

Definition migrate : M unit :=
  try_finally
    (try_catch
       (health <- healthCheck;;
        (if negb health then throw DatabaseUnhealthy else ret tt);;
        createMigrationsTable;;
        let migrations := getMigrationFiles in
        appliedCount <- migrate_loop migrations 0;;
        console (LogComplete appliedCount))
       (fun error => console (LogMigrationFailed error);; process_exit 1))
    close.

(** What status prints: the rows under "Applied Migrations:" and the
    catalog entries under "Pending Migrations:". *)
Definition status : M (list MigrationRecord * list MigrationFile) :=
  try_finally
    (try_catch
       (health <- healthCheck;;
        (if negb health then throw DatabaseUnhealthy else ret tt);;
        createMigrationsTable;;
        appliedMigrations <-
          query "SELECT version, description, applied_at, environment FROM schema_migrations ORDER BY version"
                client_select_all_migrations;;
        let allMigrations := getMigrationFiles in
        let appliedVersions : gset string :=
          list_to_set (List.map r_version appliedMigrations) in
        let pendingMigrations :=
          List.filter (fun m => negb (bool_decide (version m ∈ appliedVersions)))
                      allMigrations in
        ret (appliedMigrations, pendingMigrations))
       (fun error => console (LogStatusFailed error);; process_exit 1))
    close.
End Migrator.
End DatabaseMigrator.

(** ** scripts/create-release.sh and the manifest document *)
Module create_release.
Record ServiceRef := {
  sha : string;
  image : string;
  tag : string;
}.

Record StagingMetadata := {
  staging_deployed_at : string;
  staging_deployed_by : string;
}.

Record ProductionMetadata := {
  production_deployed_at : string;
  production_deployed_by : string;
  production_approved_by : string;
}.

(** releases/manifest.json *)
Record Manifest := {
  manifest_version : string;
  created_at : string;
  manifest_description : string;
  services : gmap string ServiceRef;
  staging : StagingMetadata;
  production : ProductionMetadata;
}.

(** What stops the script: "${n:?message}" on a parameter that is unset or
    empty, and, under set -e, a redirection `> file` that cannot open the
    file. *)
Inductive ShellError :=
| ParameterNullOrUnset (position : nat) (message : string)
| CannotCreate (file : string).

Definition parameter (args : list string) (position : nat) (message : string)
  : ShellError + string :=
  match args !! (position - 1)%nat with
  | Some v => if String.eqb v "" then inl (ParameterNullOrUnset position message)
              else inr v
  | None => inl (ParameterNullOrUnset position message)
  end.

(** The here-document, for the arguments of the script and the output of
    `date -u +%Y-%m-%dT%H:%M:%SZ`.  The shell pastes the arguments into the
    text as they are; the record holds the fields of the document that this
    text is for arguments without characters that JSON escapes. *)
Definition manifest_document (VERSION API_SHA WORKERS_SHA DB_SHA date : string)
  : Manifest :=
  {| manifest_version := VERSION;
     created_at := date;
     manifest_description := "";
     services :=
       {[ "tachyon-api" :=
            {| sha := API_SHA; image := "ghcr.io/tachyonapp/tachyon-api";
               tag := API_SHA |};
          "tachyon-workers" :=
            {| sha := WORKERS_SHA; image := "ghcr.io/tachyonapp/tachyon-workers";
               tag := WORKERS_SHA |};
          "tachyon-db-migrate" :=
            {| sha := DB_SHA; image := "ghcr.io/tachyonapp/tachyon-db-migrate";
               tag := DB_SHA |} ]};
     staging := {| staging_deployed_at := ""; staging_deployed_by := "" |};
     production := {| production_deployed_at := ""; production_deployed_by := "";
                      production_approved_by := "" |} |}.

Definition MANIFEST_FILE : string := "releases/manifest.json".

(** One run of the script in its working directory: [writable] says
    whether the shell can open releases/manifest.json for writing (the
    directory releases/ is there and allows it), [file] is the content of
    the file before the run ([None]: no such file).  The result is the
    error that stopped the script, if any, and the content of the file
    afterwards.  A write that fails after the file has been opened (a full
    disk) is not modelled. *)
Definition create_release (args : list string) (date : string)
                          (writable : bool) (file : option Manifest)
  : option ShellError * option Manifest :=
  match parameter args 1 "Usage: create-release.sh <version> <api-sha> <workers-sha> <db-sha>" with
  | inl e => (Some e, file)
  | inr VERSION =>
  match parameter args 2 "Missing api-sha" with
  | inl e => (Some e, file)
  | inr API_SHA =>
  match parameter args 3 "Missing workers-sha" with
  | inl e => (Some e, file)
  | inr WORKERS_SHA =>
  match parameter args 4 "Missing db-sha" with
  | inl e => (Some e, file)
  | inr DB_SHA =>
      (* cat > "$MANIFEST_FILE" <<EOF ... EOF *)
      if writable
      then (None, Some (manifest_document VERSION API_SHA WORKERS_SHA DB_SHA date))
      else (Some (CannotCreate MANIFEST_FILE), file)
  end end end end.
End create_release.
Export create_release.

(** ** The manifest store operations of the deployment workflows *)
Module ReleaseManifest.
Inductive PromotionError :=
| StagingNotDoneError.

(** A deployment timestamp is unset when it is the empty string, the
    value create-release.sh writes. *)
Definition is_set (deployed_at : string) : bool := negb (String.eqb deployed_at "").

(** Modelled from the spec: recordStagingDeploy(version, actor, timestamp),
    which lives in the deploy-staging workflow and is not under src/.  It
    populates environments.staging of the manifest of that version and
    leaves every other field as it is. *)
Definition recordStagingDeploy (actor timestamp : string) (m : Manifest) : Manifest :=
  {| manifest_version := manifest_version m;
     created_at := created_at m;
     manifest_description := manifest_description m;
     services := services m;
     staging := {| staging_deployed_at := timestamp; staging_deployed_by := actor |};
     production := production m |}.

(** Modelled from the spec: recordProductionDeploy(version, actor, approver,
    timestamp), which lives in the deploy-prod workflow and is not under
    src/.  It fails with StagingNotDoneError if
    environments.staging.deployed_at is unset for that version, and
    otherwise populates environments.production. *)
Definition recordProductionDeploy (actor approver timestamp : string) (m : Manifest)
  : PromotionError + Manifest :=
  if is_set (staging_deployed_at (staging m)) then
    inr {| manifest_version := manifest_version m;
           created_at := created_at m;
           manifest_description := manifest_description m;
           services := services m;
           staging := staging m;
           production := {| production_deployed_at := timestamp;
                            production_deployed_by := actor;
                            production_approved_by := approver |} |}
  else inl StagingNotDoneError.

(** The operations on the manifest file, and a history of them. *)
Inductive Operation :=
| Create (args : list string) (date : string) (writable : bool)
| StagingDeploy (actor timestamp : string)
| ProductionDeploy (actor approver timestamp : string).

(** A failed operation leaves the file as it was. *)
Definition apply_operation (file : option Manifest) (op : Operation) : option Manifest :=
  match op with
  | Create args date writable => snd (create_release args date writable file)
  | StagingDeploy actor timestamp => recordStagingDeploy actor timestamp <$> file
  | ProductionDeploy actor approver timestamp =>
      match file with
      | Some m => match recordProductionDeploy actor approver timestamp m with
                  | inr m' => Some m'
                  | inl _ => Some m
                  end
      | None => None
      end
  end.

Definition apply_history (file : option Manifest) (ops : list Operation)
  : option Manifest :=
  List.fold_left apply_operation ops file.

(** a staging deployment is recorded with the time of the deployment *)
Definition timestamped (op : Operation) : bool :=
  match op with
  | StagingDeploy _ timestamp => is_set timestamp
  | _ => true
  end.

(** production.deployed_at is set only if staging.deployed_at is set *)
Definition staging_first (m : Manifest) : Prop :=
  is_set (production_deployed_at (production m)) = true ->
  is_set (staging_deployed_at (staging m)) = true.
End ReleaseManifest.

(** ** What is observed of a world *)
Section Observations.
Context `{P : Platform}.

(** Everything but the audit table and the count of leased clients. *)
Definition frame (w : World) :=
  (server_up w, db w, snapshot w, pool w, now w, trace w).

(** the store that ROLLBACK restores after the script has run in a
    transaction begun on [s] *)
Definition rolled_back (content : string) (s : Store) : Store :=
  match rollback_point content (schema s) with
  | Some d => {| schema := d; schema_migrations := schema_migrations s |}
  | None => s
  end.

(** the script of the unit, when it can be read, leaves the transaction it
    is sent in open on the store [s] *)
Definition keeps_transaction (s : Store) (m : MigrationFile) : Prop :=
  forall content,
    readFileSync (path m) = Some content -> rollback_point content (schema s) = None.

(** rows[0] of the SELECT of [isMigrationApplied] *)
Definition tracking_record (version : string) (s : Store) : option MigrationRecord :=
  match schema_migrations s with
  | Some rows => head (List.filter (fun r => String.eqb (r_version r) version) rows)
  | None => None
  end.

(** the unit has a tracking record and its checksum is the digest of the
    content the file has now *)
Definition recorded (s : Store) (m : MigrationFile) : Prop :=
  exists content row,
    readFileSync (path m) = Some content /\
    tracking_record (version m) s = Some row /\
    r_checksum row = sha256_hex content.

(** the unit has a tracking record whose checksum differs from the digest
    of the content the file has now *)
Definition drifted (s : Store) (m : MigrationFile) (row : MigrationRecord)
                   (content : string) : Prop :=
  readFileSync (path m) = Some content /\
  tracking_record (version m) s = Some row /\
  r_checksum row <> sha256_hex content.

(** the store that [applyMigration] leaves when it throws on the unit in a
    database that was [s]: only a script that was sent can have moved it *)
Definition unwound (m : MigrationFile) (s : Store) : Store :=
  match readFileSync (path m), tracking_record (version m) s with
  | Some content, None => rolled_back content s
  | _, _ => s
  end.

(** versions of the units that [applyMigration] was called on *)
Fixpoint attempted (t : list Event) : list string :=
  match t with
  | LogProcessing v :: t' => v :: attempted t'
  | _ :: t' => attempted t'
  | [] => []
  end.

(** the scripts sent to the server *)
Fixpoint executed (t : list Event) : list string :=
  match t with
  | EvScript c :: t' => c :: executed t'
  | _ :: t' => executed t'
  | [] => []
  end.

(** versions of the tracking rows sent to the server *)
Fixpoint inserted (t : list Event) : list string :=
  match t with
  | EvInsert v :: t' => v :: inserted t'
  | _ :: t' => inserted t'
  | [] => []
  end.

(** versions of the units reported by "Applied migration ..." *)
Fixpoint applied (t : list Event) : list string :=
  match t with
  | LogApplied v :: t' => v :: applied t'
  | _ :: t' => applied t'
  | [] => []
  end.

(** the counts printed by "Migration complete! Applied n new migration(s)" *)
Fixpoint reported (t : list Event) : list nat :=
  match t with
  | LogComplete n :: t' => n :: reported t'
  | _ :: t' => reported t'
  | [] => []
  end.

(** the errors printed after "Migration failed:" *)
Fixpoint failures (t : list Event) : list Error :=
  match t with
  | LogMigrationFailed e :: t' => e :: failures t'
  | _ :: t' => failures t'
  | [] => []
  end.

(** A computation that neither reads nor writes the audit table or the
    lease count: on worlds with the same frame it has the same outcome
    and leaves the same frame. *)
Definition audit_blind {A} (m : M A) : Prop :=
  forall w1 w2, frame w1 = frame w2 ->
    fst (m w1) = fst (m w2) /\ frame (snd (m w1)) = frame (snd (m w2)).

End Observations.

(** ** A small platform and a few worlds, to run the code on *)
Module Sample.
(** The schema is the list of scripts applied to it; the script "BROKEN"
    fails after its first statement, and the script of unit 004 commits
    its first statement before its last one fails. *)
Definition platform : Platform :=
  {| Schema := list string;
     run_sql := fun content s =>
       if String.eqb content "BROKEN" then (s ++ ["half of BROKEN"], false)
       else if String.eqb content "CREATE TABLE leaked; COMMIT; SELECT 1/0"
            then (s ++ ["CREATE TABLE leaked"], false)
       else (s ++ [content], true);
     rollback_point := fun content s =>
       if String.eqb content "CREATE TABLE leaked; COMMIT; SELECT 1/0"
       then Some (s ++ ["CREATE TABLE leaked"])
       else None;
     sha256_hex := fun content => "sha256:" +:+ content;
     readFileSync := fun path =>
       if String.eqb path "/migrations/001_initial_schema.sql" then Some "CREATE TABLE users"
       else if String.eqb path "/migrations/002_add_bots.sql" then Some "CREATE TABLE bots"
       else if String.eqb path "/migrations/003_broken.sql" then Some "BROKEN"
       else if String.eqb path "/migrations/004_leaky.sql"
            then Some "CREATE TABLE leaked; COMMIT; SELECT 1/0"
       else None |}.

Definition local_context : MigrationContext :=
  {| environment := "local";
     config := {| name := "local"; envFile := ".env.local";
                  requiresConfirmation := false; confirmationKeyword := "yes";
                  env_description := "Local Docker PostgreSQL (Safe)" |};
     dbConfig := {| host := "localhost"; port := Some 5432%Z; database := "tacyhon_dev";
                    user := "tachyon_dev"; password := "dev_password";
                    ssl := false; sslRejectUnauthorized := false |};
     isCI := false;
     autoConfirm := false |}.

Definition unit_002 : MigrationFile :=
  {| filename := "002_add_bots.sql"; version := "002";
     description := "Bots"; path := "/migrations/002_add_bots.sql" |}.
Definition unit_003 : MigrationFile :=
  {| filename := "003_broken.sql"; version := "003";
     description := "Broken"; path := "/migrations/003_broken.sql" |}.

Definition unit_004 : MigrationFile :=
  {| filename := "004_leaky.sql"; version := "004";
     description := "Leaky"; path := "/migrations/004_leaky.sql" |}.

Definition catalog : list MigrationFile := MIGRATIONS "/migrations".

Definition world (up : bool) (rows : option (list MigrationRecord)) : @World platform :=
  {| server_up := up;
     db := {| schema := [] : @Schema platform; schema_migrations := rows |};
     snapshot := None;
     audit_events := AuditIncompatible;
     pool := true;
     leased := 0;
     now := 1700000000%Z;
     trace := [] |}.

Definition row_001 (checksum : string) : MigrationRecord :=
  {| r_version := "001";
     r_description := "Initial APPI compliant schema with encrypted PII fields";
     r_applied_at := 1600000000%Z;
     r_checksum := checksum;
     r_environment := "local" |}.
Definition row_999 : MigrationRecord :=
  {| r_version := "999"; r_description := "Retired"; r_applied_at := 1500000000%Z;
     r_checksum := "sha256:DROP TABLE legacy"; r_environment := "local" |}.

Definition unit_001 : MigrationFile :=
  {| filename := "001_initial_schema.sql"; version := "001";
     description := "Initial APPI compliant schema with encrypted PII fields";
     path := "/migrations/001_initial_schema.sql" |}.

(** a unit whose version does not fit VARCHAR(50) *)
Definition unit_long : MigrationFile :=
  {| filename := "002_add_bots.sql";
     version := "002_add_bots_and_everything_else_that_was_missing_so_far";
     description := "Bots"; path := "/migrations/002_add_bots.sql" |}.

(** a target that asks for confirmation *)
Definition guarded_context : MigrationContext :=
  {| environment := "prod";
     config := {| name := "prod"; envFile := ".env.prod";
                  requiresConfirmation := true; confirmationKeyword := "yes";
                  env_description := "Production" |};
     dbConfig := dbConfig local_context;
     isCI := false;
     autoConfirm := false |}.

(** node without env files, whose parseInt knows the default port *)
Definition node : Node :=
  {| parseInt := fun s => if String.eqb s "5432" then Some 5432%Z else None;
     env_file := fun _ => None |}.

(** the row of 001 carries the checksum of an edited file *)
Definition drifted_world : @World platform := world true (Some [row_001 "sha256:edited"]).

(** version 0.2.0, deployed to staging *)
Definition released : Manifest :=
  ReleaseManifest.recordStagingDeploy "engineer" "2026-02-23T12:05:00Z"
    (manifest_document "0.2.0" "abc1234" "def5678" "ghi9012" "2026-02-23T12:00:00Z").

(** the tracking table holds a row for a version that left the catalog *)
Definition retired_world : @World platform :=
  world true (Some [row_999; row_001 "sha256:CREATE TABLE users"]).
End Sample.

(** ** connection.ts: the constructor of PostgreSQLManager *)
Module PoolConfiguration.
(** this.config, the argument of `new Pool` *)
Record PoolConfig := {
  pool_host : string;
  pool_port : option Z;
  pool_database : string;
  pool_user : string;
  pool_password : string;
  pool_max : option Z;
  idleTimeoutMillis : Z;
  connectionTimeoutMillis : Z;
  (** ssl.rejectUnauthorized; [None] when the ssl field is absent *)
  pool_ssl : option bool;
}.

Inductive ConstructorError :=
| PasswordRequired.   (* "POSTGRES_PASSWORD environment variable is required" *)

Section Constructor.
Context `{Nd : Node}.

(** process.env.NAME === value *)
Definition env_is (env : gmap string string) (var value : string) : bool :=
  match env !! var with
  | Some v => String.eqb v value
  | None => false
  end.

(** The constructor up to `this.initializePool()`, which creates the pool
    without connecting. *)
Definition new_PostgreSQLManager (env : gmap string string)
  : ConstructorError + PoolConfig :=
  let ssl :=
    if env_is env "NODE_ENV" "production" || env_is env "POSTGRES_SSL" "true" then
      Some (match env !! "POSTGRES_SSL_REJECT_UNAUTHORIZED" with
            | Some v => String.eqb v "true"
            | None => env_is env "NODE_ENV" "production"
            end)
    else None in
  let config :=
    {| pool_host := ConfigurationLoader.env_or env "POSTGRES_HOST" "localhost";
       pool_port := parseInt (ConfigurationLoader.env_or env "POSTGRES_PORT" "5432");
       pool_database := ConfigurationLoader.env_or env "POSTGRES_DB" "tachyon_db";
       pool_user := ConfigurationLoader.env_or env "POSTGRES_USER" "tachyon_admin";
       pool_password := ConfigurationLoader.env_or env "POSTGRES_PASSWORD" "";
       pool_max := parseInt (ConfigurationLoader.env_or env "POSTGRES_MAX_CONNECTIONS" "20");
       idleTimeoutMillis := 30000;
       connectionTimeoutMillis := 10000;
       pool_ssl := ssl |} in
  if String.eqb (pool_password config) "" then inl PasswordRequired
  else inr config.

(** Boolean.prototype.toString *)
Definition bool_toString (b : bool) : string := if b then "true" else "false".

(** The constructor of DatabaseMigrator: it writes dbConfig into process.env
    and creates the manager from there.  [port_toString] is
    dbConfig.port.toString().  The result is the configuration of the pool
    and process.env as the constructor leaves it. *)
Definition new_DatabaseMigrator (port_toString : option Z -> string)
    (context : MigrationContext) (env : gmap string string)
  : ConstructorError + (PoolConfig * gmap string string) :=
  let dbConfig := dbConfig context in
  let env := <["POSTGRES_HOST" := host dbConfig]> env in
  let env := <["POSTGRES_PORT" := port_toString (port dbConfig)]> env in
  let env := <["POSTGRES_DB" := database dbConfig]> env in
  let env := <["POSTGRES_USER" := user dbConfig]> env in
  let env := <["POSTGRES_PASSWORD" := password dbConfig]> env in
  let env := <["POSTGRES_SSL" := bool_toString (ssl dbConfig)]> env in
  let env := <["POSTGRES_SSL_REJECT_UNAUTHORIZED" :=
                 bool_toString (sslRejectUnauthorized dbConfig)]> env in
  match new_PostgreSQLManager env with
  | inl e => inl e
  | inr config => inr (config, env)
  end.
End Constructor.
End PoolConfiguration.

(** ** migrate.ts: initializeAPPIData and main *)
Module Cli.
Section Cli.
Context `{P : Platform} `{Nd : Node}.
Variable MIGRATIONS : list MigrationFile.
Variable port_toString : option Z -> string.

Import PostgreSQLManager DatabaseMigrator.

(** client.query(text) for a text that is not a migration file: outside a
    transaction the server undoes a statement that fails *)
Definition client_statement (text : string) : M unit :=
  fun w =>
    let w := emit (EvScript text) w in
    let '(s', ok) := run_sql text (schema (db w)) in
    let w' := set_db (fun s => {| schema := s';
                                  schema_migrations := schema_migrations s |}) w in
    if ok then (Ok tt, w')
    else (Throw (ScriptError text), match snapshot w with None => w | Some _ => w' end).

Definition dquote : string := String "034"%char EmptyString.

(** the two statements of initializeAPPIData *)
Definition insert_privacy_policy : string :=
  "
        INSERT INTO privacy_policy_versions (
          version, effective_date, en_content_hash, jp_content_hash,
          major_changes, requires_reconsent
        ) VALUES (
          'v1.0.0', NOW(),
          encode(sha256('initial_en_policy'), 'hex'),
          encode(sha256('initial_jp_policy'), 'hex'),
          ARRAY['Initial APPI compliant privacy policy'],
          true
        ) ON CONFLICT (version) DO NOTHING
      ".

Definition insert_appi_audit_event (environment : string) : string :=
  "
        INSERT INTO appi_audit_events (
          event_id, event_type, event_timestamp, ip_address,
          user_agent, data_accessed, compliance_status, event_details
        ) VALUES (
          'init_' || extract(epoch from now()) || '_appi',
          'data_access',
          NOW(),
          '127.0.0.1',
          'migration_script',
          'APPI compliance tables initialized',
          'compliant',
          '{" +:+ dquote +:+ "action" +:+ dquote +:+ ": " +:+ dquote +:+ "database_initialization" +:+ dquote +:+ ", " +:+ dquote +:+ "compliance_level" +:+ dquote +:+ ": " +:+ dquote +:+ "APPI_Article_24_compliant" +:+ dquote +:+ ", " +:+ dquote +:+ "environment" +:+ dquote +:+ ": " +:+ dquote
  +:+ environment +:+ dquote +:+ "}'
        )
      ".

Definition initializeAPPIData (context : MigrationContext) : M unit :=
  try_finally
    (try_catch
       (query insert_privacy_policy (client_statement insert_privacy_policy);;
        query (insert_appi_audit_event (environment context))
              (client_statement (insert_appi_audit_event (environment context))))
       (fun error => throw error))
    close.

(** args[0] || "migrate" *)
Definition command_of (args : list string) : string :=
  match args with
  | a :: _ => if String.eqb a "" then "migrate" else a
  | [] => "migrate"
  end.

(** The function main(), for the arguments after the script name,
    process.env, the lines the operator types and the database.  [None]: the confirmation prompt is
    never answered and main does not finish.  displayTarget and the other
    console lines outside [Event] leave no trace. *)
Definition main (args : list string) (env : gmap string string)
    (stdin : list (list N)) (w : World) : option (Outcome unit * World) :=
  let command := command_of args in
  match ConfigurationLoader.buildContext env with
  | inl _ => Some (@process_exit _ unit 1 w)
  | inr (context, env) =>
      let confirmed :=
        if requiresConfirmation (config context) || String.eqb command "migrate"
        then fst (SafetyCheck.promptConfirmation context stdin)
        else Some true in
      match confirmed with
      | None => None
      | Some false => Some (@process_exit _ unit 1 w)
      | Some true =>
          match PoolConfiguration.new_DatabaseMigrator port_toString context env with
          | inl _ => Some (@process_exit _ unit 1 w)
          | inr _ =>
              Some (try_catch
                      ((if String.eqb command "migrate" then
                          migrate context MIGRATIONS;;
                          initializeAPPIData context
                        else if String.eqb command "status" then
                          status MIGRATIONS;; ret tt
                        else if String.eqb command "init-appi" then
                          initializeAPPIData context
                        else process_exit 1);;
                       process_exit 0)
                      (fun _ => process_exit 1)
                      (constructor w))
          end
      end
  end.

(** Running migrate.ts as the main module.  Its import of ./connection is
    evaluated first: "dotenv/config" sets the variables of the .env file of
    the working directory that process.env does not have ([dotenv] is the
    parsed file, [None] when there is none), and the module creates its
    singleton PostgreSQLManager from process.env (and the RedisManager,
    whose constructor does not throw).  An exception thrown there is not
    caught and ends the process with exit code 1 before main() is called. *)
Definition migrate_ts (dotenv : option (gmap string string))
    (args : list string) (env : gmap string string)
    (stdin : list (list N)) (w : World) : option (Outcome unit * World) :=
  let env := match dotenv with
             | Some vars => env ∪ vars
             | None => env
             end in
  match PoolConfiguration.new_PostgreSQLManager env with
  | inl _ => Some (Exit 1, w)
  | inr _ => main args env stdin w
  end.
End Cli.
End Cli.

(** ** connection.ts: class RedisManager *)
Module RedisManager.
Inductive RedisError :=
| ClientNotInitialized      (* "Redis client not initialized" *)
| RedisUnreachable          (* ioredis: the command cannot be sent *)
| InvalidExpireTime         (* redis: invalid expire time in 'setex' command *)
| JsonSyntaxError.          (* JSON.parse threw *)

(** The server as the commands of the manager see it: the value of a key and
    the time at which it expires, and the time of the server in seconds. *)
Record Redis := {
  client : bool;                                   (* this.client !== null *)
  reachable : bool;
  keys : gmap string (string * option Z);
  time : Z;
}.

Definition with_keys (k : gmap string (string * option Z)) (r : Redis) : Redis :=
  {| client := client r; reachable := reachable r; keys := k; time := time r |}.

(** time passes on the server *)
Definition elapse (seconds : Z) (r : Redis) : Redis :=
  {| client := client r; reachable := reachable r; keys := keys r;
     time := (time r + seconds)%Z |}.

(** the value of a key that has not expired *)
Definition live (r : Redis) (key : string) : option string :=
  match keys r !! key with
  | Some (value, None) => Some value
  | Some (value, Some expires) => if (time r <? expires)%Z then Some value else None
  | None => None
  end.

Definition R (A : Type) : Type := Redis -> (RedisError + A) * Redis.

(** The commands of the server.  A key that has expired is a key that does
    not exist. *)
Definition GET (key : string) : R (option string) :=
  fun r => (inr (live r key), r).
Definition SET (key value : string) : R unit :=
  fun r => (inr tt, with_keys (<[key := (value, None)]> (keys r)) r).
Definition SETEX (key : string) (seconds : Z) (value : string) : R unit :=
  fun r =>
    if (seconds <=? 0)%Z then (inl InvalidExpireTime, r)
    else (inr tt, with_keys (<[key := (value, Some (time r + seconds)%Z)]> (keys r)) r).
Definition DEL (key : string) : R Z :=
  fun r => (inr (match live r key with Some _ => 1%Z | None => 0%Z end),
            with_keys (base.delete key (keys r)) r).
Definition EXISTS (key : string) : R Z :=
  fun r => (inr (match live r key with Some _ => 1%Z | None => 0%Z end), r).

(** The guard `if (!this.client) throw ...` and the command sent through
    the client; the catch block of every method logs and throws again. *)
Definition command {A} (cmd : R A) : R A :=
  fun r =>
    if negb (client r) then (inl ClientNotInitialized, r)
    else if negb (reachable r) then (inl RedisUnreachable, r)
    else cmd r.

Definition get (key : string) : R (option string) := command (GET key).

(** `if (ttlSeconds)`: an absent ttl and the ttl 0 are falsy *)
Definition set (key value : string) (ttlSeconds : option Z) : R unit :=
  match ttlSeconds with
  | Some ttl => if (ttl =? 0)%Z then command (SET key value)
                else command (SETEX key ttl value)
  | None => command (SET key value)
  end.

Definition delete (key : string) : R Z := command (DEL key).

Definition exists_ (key : string) : R bool :=
  fun r =>
    match command (EXISTS key) r with
    | (inr result, r') => (inr (Z.eqb result 1), r')
    | (inl e, r') => (inl e, r')
    end.

(** JSON.stringify and JSON.parse on the values the callers store *)
Class Json := {
  JsonValue : Type;
  JSON_stringify : JsonValue -> string;
  JSON_parse : string -> option JsonValue;
}.

Section Sessions.
Context `{J : Json}.

(** data ? JSON.parse(data) : null *)
Definition parse_or_null (data : option string) : RedisError + option JsonValue :=
  match data with
  | None => inr None
  | Some text =>
      if String.eqb text "" then inr None
      else match JSON_parse text with
           | Some v => inr (Some v)
           | None => inl JsonSyntaxError
           end
  end.

Definition setSession (sessionId : string) (sessionData : JsonValue)
    (ttlSeconds : option Z) : R unit :=
  let key := "session:" +:+ sessionId in
  set key (JSON_stringify sessionData) (Some (default 86400%Z ttlSeconds)).

Definition getSession (sessionId : string) : R (option JsonValue) :=
  fun r =>
    let key := "session:" +:+ sessionId in
    match get key r with
    | (inr data, r') => (parse_or_null data, r')
    | (inl e, r') => (inl e, r')
    end.

Definition deleteSession (sessionId : string) : R unit :=
  fun r =>
    let key := "session:" +:+ sessionId in
    match delete key r with
    | (inr _, r') => (inr tt, r')
    | (inl e, r') => (inl e, r')
    end.

Definition cacheResponse (cacheKey : string) (data : JsonValue)
    (ttlSeconds : option Z) : R unit :=
  set ("cache:" +:+ cacheKey) (JSON_stringify data) (Some (default 300%Z ttlSeconds)).

Definition getCachedResponse (cacheKey : string) : R (option JsonValue) :=
  fun r =>
    match get ("cache:" +:+ cacheKey) r with
    | (inr data, r') => (parse_or_null data, r')
    | (inl e, r') => (inl e, r')
    end.
End Sessions.

(** { healthy, latency } without the latency *)
Definition healthCheck (r : Redis) : bool * Redis :=
  if negb (client r) then (false, r)
  else if reachable r then (true, r) else (false, r).

(** client.quit() is a command like the others *)
Definition close : R unit :=
  fun r =>
    if client r then
      if reachable r then
        (inr tt, {| client := false; reachable := reachable r; keys := keys r;
                    time := time r |})
      else (inl RedisUnreachable, r)
    else (inr tt, r).
End RedisManager.

(** ** connection.ts: testConnections, closeAllConnections and
    initializeConnections, on the two singletons *)
Module Connections.
Section Connections.
Context `{P : Platform}.

Record Singletons := {
  postgresql : World;
  redis : RedisManager.Redis;
  (** the delays of setTimeout, in milliseconds, oldest first *)
  timeouts : list Z;
}.

Inductive ConnectionsError :=
| ConnectionsNotEstablished (retries : Z)   (* "Failed to establish ... after n attempts" *)
| RedisFailure (e : RedisManager.RedisError).

(** The two health checks of Promise.all work on different servers; they are
    run one after the other. *)
Definition testConnections (s : Singletons) : (bool * bool) * Singletons :=
  let '(postgresHealth, w) := PostgreSQLManager.healthCheck (postgresql s) in
  let '(redisHealth, r) := RedisManager.healthCheck (redis s) in
  ((match postgresHealth with Ok h => h | _ => false end, redisHealth),
   {| postgresql := w; redis := r; timeouts := timeouts s |}).

(** Promise.all starts both closes; it rejects when the second one does *)
Definition closeAllConnections (s : Singletons) : (ConnectionsError + unit) * Singletons :=
  let w := snd (PostgreSQLManager.close (postgresql s)) in
  let '(result, r) := RedisManager.close (redis s) in
  (match result with
   | inr _ => inr tt
   | inl e => inl (RedisFailure e)
   end,
   {| postgresql := w; redis := r; timeouts := timeouts s |}).

(** The turns of `for (let attempt = 1; attempt <= retries; attempt++)` that
    are left, [remaining] of them, the next one being [attempt]. *)
Fixpoint attempts (remaining : nat) (attempt retries : Z) (s : Singletons)
  : (ConnectionsError + unit) * Singletons :=
  match remaining with
  | O => (inr tt, s)
  | S remaining' =>
      let '((postgresHealthy, redisHealthy), s) := testConnections s in
      if postgresHealthy && redisHealthy then (inr tt, s)
      else
        (* the health-check error is thrown and caught in the same turn *)
        if (attempt =? retries)%Z then (inl (ConnectionsNotEstablished retries), s)
        else
          let s := {| postgresql := postgresql s; redis := redis s;
                      timeouts := timeouts s ++ [(2 ^ attempt * 1000)%Z] |} in
          attempts remaining' (attempt + 1)%Z retries s
  end.

(** [retries] is a whole number; it is 3 when the argument is left out *)
Definition initializeConnections (retries : option Z) (s : Singletons)
  : (ConnectionsError + unit) * Singletons :=
  let retries := default 3%Z retries in
  attempts (Z.to_nat retries) 1 retries s.
End Connections.
End Connections.

(** ** More inputs to run the code on *)
Module SampleRuns.
Import Sample.

(** a unit whose file is not on disk *)
Definition unit_missing : MigrationFile :=
  {| filename := "004_missing.sql"; version := "004";
     description := "Missing"; path := "/migrations/004_missing.sql" |}.

(** Number.prototype.toString on the ports of the examples *)
Definition port_toString (p : option Z) : string :=
  match p with
  | Some 5432%Z => "5432"
  | _ => "NaN"
  end.

Definition local_env : gmap string string := {[ "MIGRATION_ENV" := "local" ]}.

(** the environment of `npm run db:migrate:local` with the password set *)
Definition docker_env : gmap string string :=
  {[ "MIGRATION_ENV" := "local"; "POSTGRES_PASSWORD" := "dev_password" ]}.

(** JSON for values that are strings, written after the mark j: *)
Definition json : RedisManager.Json :=
  {| RedisManager.JsonValue := string;
     RedisManager.JSON_stringify := fun v => "j:" +:+ v;
     RedisManager.JSON_parse := fun text =>
       match text with
       | String "j" (String ":" v) => Some v
       | _ => None
       end |}.

Definition empty_redis : RedisManager.Redis :=
  {| RedisManager.client := true; RedisManager.reachable := true;
     RedisManager.keys := ∅; RedisManager.time := 1000 |}.

(** the database is down, the cache is up *)
Definition singletons : @Connections.Singletons platform :=
  {| Connections.postgresql := world false None;
     Connections.redis := empty_redis;
     Connections.timeouts := [] |}.
End SampleRuns.

(** * Properties *)

Import PostgreSQLManager DatabaseMigrator ConfigurationLoader SafetyCheck ReleaseManifest.

Ltac unfold_monad :=
  unfold bind, ret, throw, try_catch, try_finally, get, modify, console, process_exit in *.

Ltac blind_worlds :=
  let Hf := fresh "Hf" in
  intros [? ? ? ? ? ? ? ?] [? ? ? ? ? ? ? ?] Hf;
  unfold frame in Hf; simpl in Hf; injection Hf as -> -> -> -> -> ->.

Section ManagerFacts.
Context `{P : Platform}.

Lemma frame_inv w1 w2 :
  frame w1 = frame w2 ->
  server_up w1 = server_up w2 /\ db w1 = db w2 /\ snapshot w1 = snapshot w2 /\
  pool w1 = pool w2 /\ now w1 = now w2 /\ trace w1 = trace w2.
Proof. unfold frame. intros H. injection H. tauto. Qed.

Lemma logAuditEvent_run eventType details w :
  exists w', logAuditEvent eventType details w = (Ok tt, w') /\ frame w' = frame w.
Proof.
  unfold logAuditEvent, pool_audit_table_exists, pool_insert_audit. unfold_monad.
  cbn beta.
  destruct (pool w); [|eauto].
  destruct (server_up w) eqn:Hs; [|eauto].
  destruct (audit_events w) eqn:Ha; cbn; rewrite ?Hs, ?Ha; eauto.
Qed.

Lemma getConnection_run w :
  exists w', getConnection w =
    (if pool w then if server_up w then Ok tt else Throw ConnectionError
     else Throw PoolNotInitialized, w') /\ frame w' = frame w.
Proof.
  unfold getConnection, pool_connect. unfold_monad.
  destruct (pool w) eqn:Hp; simpl; [|eauto].
  destruct (server_up w) eqn:Hs; simpl; [|eauto].
  destruct (logAuditEvent_run "data_access" "Connection acquired"
              (set_leased (S (leased w)) w)) as (w' & -> & Hf).
  eexists; split; [reflexivity|]. rewrite Hf. reflexivity.
Qed.

Lemma query_run {A} text (stmt : M A) w :
  exists w1 w',
    query text stmt w =
    (if pool w then if server_up w then fst (stmt w1) else Throw ConnectionError
     else Throw PoolNotInitialized, w') /\
    frame w1 = frame w /\
    frame w' = frame (if pool w && server_up w then snd (stmt w1) else w).
Proof.
  unfold query. unfold bind at 1.
  destruct (getConnection_run w) as (w0 & -> & Hf0).
  destruct (pool w) eqn:Hp; simpl; [|exists w; eauto].
  destruct (server_up w) eqn:Hs; simpl; [|exists w; eauto].
  unfold try_finally, try_catch. unfold bind at 1.
  destruct (logAuditEvent_run "data_access"
              ("Query: " +:+ substring_0_100 text +:+ "...") w0) as (w1 & -> & Hf1).
  exists w1. unfold_monad. unfold client_release. 
  destruct (stmt w1) as [[a|e|c] w2]; simpl; eexists; (split; [reflexivity|]); split; (reflexivity || congruence).
Qed.

Lemma client_begin_blind : audit_blind client_begin.
Proof.
  blind_worlds. unfold client_begin, modify, frame; simpl.
  repeat case_match; auto.
Qed.

Lemma client_commit_blind : audit_blind client_commit.
Proof.
  blind_worlds. unfold client_commit, modify, frame; simpl.
  repeat case_match; auto.
Qed.

Lemma client_rollback_blind : audit_blind client_rollback.
Proof.
  blind_worlds. unfold client_rollback, modify, frame; simpl.
  repeat case_match; auto.
Qed.

Lemma transaction_run {A} (callback : M A) w :
  pool w = true -> server_up w = true ->
  exists w0 w1 w',
    transaction callback w = (fst (callback w1), w') /\
    frame w0 = frame w /\
    frame w1 = frame (snd (client_begin w0)) /\
    frame w' = frame (match fst (callback w1) with
                      | Ok _ => snd (client_commit (snd (callback w1)))
                      | Throw _ => snd (client_rollback (snd (callback w1)))
                      | Exit _ => snd (callback w1)
                      end).
Proof.
  intros Hp Hs. unfold transaction. unfold bind at 1.
  destruct (getConnection_run w) as (w0 & -> & Hf0). rewrite Hp, Hs.
  exists w0.
  unfold try_finally, try_catch. unfold bind at 1.
  unfold client_begin at 1, modify at 1.
  unfold bind at 1.
  match goal with |- context [logAuditEvent ?a ?b ?x] =>
    destruct (logAuditEvent_run a b x) as (w1 & -> & Hf1) end.
  exists w1. unfold bind at 1.
  destruct (callback w1) as [[a|e|c] w2]; simpl.
  - unfold bind at 1. unfold client_commit at 1, modify at 1.
    unfold bind at 1.
    match goal with |- context [logAuditEvent ?a ?b ?x] =>
      destruct (logAuditEvent_run a b x) as (w3 & -> & Hf3) end.
    unfold ret, client_release, modify. eexists; split; [reflexivity|].
    split; [done|]. split; [done|]. rewrite <- Hf3. reflexivity.
  - unfold_monad. unfold client_rollback, client_release. unfold_monad.
    eexists; split; [reflexivity|]. split; [done|]. split; [done|]. reflexivity.
  - eexists; split; [reflexivity|]. split; [done|]. split; [done|]. reflexivity.
Qed.

(** *** Computations that do not look at the audit table *)
Lemma ret_blind {A} (a : A) : audit_blind (ret a).
Proof. intros w1 w2 Hf. auto. Qed.

Lemma throw_blind {A} e : audit_blind (@throw _ A e).
Proof. intros w1 w2 Hf. auto. Qed.

Lemma bind_blind {A B} (m : M A) (k : A -> M B) :
  audit_blind m -> (forall a, audit_blind (k a)) -> audit_blind (bind m k).
Proof.
  intros Hm Hk w1 w2 Hf. unfold bind.
  destruct (Hm w1 w2 Hf) as [Ho Hw].
  destruct (m w1) as [[a|e|c] w1'], (m w2) as [o2 w2']; simpl in *; subst o2; auto.
  apply Hk; auto.
Qed.

Lemma try_catch_blind {A} (m : M A) h :
  audit_blind m -> (forall e, audit_blind (h e)) -> audit_blind (try_catch m h).
Proof.
  intros Hm Hh w1 w2 Hf. unfold try_catch.
  destruct (Hm w1 w2 Hf) as [Ho Hw].
  destruct (m w1) as [[a|e|c] w1'], (m w2) as [o2 w2']; simpl in *; subst o2; auto.
  apply Hh; auto.
Qed.

Lemma console_blind e : audit_blind (console e).
Proof. blind_worlds. auto. Qed.

Lemma client_select_1_blind : audit_blind client_select_1.
Proof. apply ret_blind. Qed.

Lemma client_create_migrations_table_blind :
  audit_blind client_create_migrations_table.
Proof. blind_worlds. auto. Qed.

Lemma client_select_migration_blind v : audit_blind (client_select_migration v).
Proof.
  blind_worlds. unfold client_select_migration; simpl. case_match; auto.
Qed.

Lemma client_select_all_migrations_blind : audit_blind client_select_all_migrations.
Proof.
  blind_worlds. unfold client_select_all_migrations; simpl. case_match; auto.
Qed.

Lemma client_insert_migration_blind v d c e :
  audit_blind (client_insert_migration v d c e).
Proof.
  blind_worlds. unfold client_insert_migration; simpl. repeat case_match; auto.
Qed.

Lemma client_script_blind c : audit_blind (client_script c).
Proof.
  blind_worlds. unfold client_script; simpl. repeat case_match; auto.
Qed.

Lemma getConnection_blind : audit_blind getConnection.
Proof.
  intros w1 w2 Hf.
  destruct (getConnection_run w1) as (w1' & -> & H1).
  destruct (getConnection_run w2) as (w2' & -> & H2).
  apply frame_inv in Hf as Hi. destruct Hi as (-> & _ & _ & -> & _).
  simpl. split; congruence.
Qed.

Lemma query_blind {A} text (stmt : M A) :
  audit_blind stmt -> audit_blind (query text stmt).
Proof.
  intros Hb w1 w2 Hf.
  destruct (query_run text stmt w1) as (a1 & w1' & -> & Ha1 & H1).
  destruct (query_run text stmt w2) as (a2 & w2' & -> & Ha2 & H2).
  apply frame_inv in Hf as Hi. destruct Hi as (Hu & _ & _ & Hp & _).
  rewrite Hu, Hp in *. simpl.
  destruct (Hb a1 a2) as [Ho Hw]; [congruence|].
  rewrite H1, H2, Ho.
  split; [reflexivity|]. destruct (pool w2 && server_up w2); congruence.
Qed.

Lemma query_blind_run {A} text (stmt : M A) w :
  audit_blind stmt -> pool w = true -> server_up w = true ->
  exists w', query text stmt w = (fst (stmt w), w') /\ frame w' = frame (snd (stmt w)).
Proof.
  intros Hb Hp Hs.
  destruct (query_run text stmt w) as (w1 & w' & -> & H1 & H').
  rewrite Hp, Hs in *. simpl in H'.
  destruct (Hb w1 w H1) as [-> Hw]. exists w'. split; congruence.
Qed.

Lemma transaction_down {A} (callback : M A) w :
  pool w && server_up w = false ->
  exists w', transaction callback w =
    (if pool w then Throw ConnectionError else Throw PoolNotInitialized, w') /\
    frame w' = frame w.
Proof.
  intros Hd. unfold transaction. unfold bind at 1.
  destruct (getConnection_run w) as (w0 & -> & Hf0).
  destruct (pool w); simpl in *; [rewrite Hd|]; eauto.
Qed.

Lemma transaction_blind {A} (callback : M A) :
  audit_blind callback -> audit_blind (transaction callback).
Proof.
  intros Hb w1 w2 Hf.
  apply frame_inv in Hf as Hi. destruct Hi as (Hu & _ & _ & Hp & _).
  destruct (pool w1 && server_up w1) eqn:Hd.
  - apply andb_true_iff in Hd as [Hp1 Hs1].
    destruct (transaction_run callback w1) as (a1 & b1 & w1' & -> & Ha1 & Hb1 & H1);
      [done..|].
    destruct (transaction_run callback w2) as (a2 & b2 & w2' & -> & Ha2 & Hb2 & H2);
      [congruence..|].
    assert (Hbb : frame b1 = frame b2).
    { rewrite Hb1, Hb2. apply client_begin_blind. congruence. }
    destruct (Hb b1 b2 Hbb) as [Ho Hw]. simpl. split; [done|].
    rewrite H1, H2, Ho.
    destruct (fst (callback b2)); [apply client_commit_blind|apply client_rollback_blind|];
      done.
  - destruct (transaction_down callback w1 Hd) as (w1' & -> & H1).
    destruct (transaction_down callback w2) as (w2' & -> & H2); [congruence|].
    simpl. rewrite Hp. split; congruence.
Qed.

Lemma transaction_blind_run {A} (callback : M A) w :
  audit_blind callback -> pool w = true -> server_up w = true ->
  exists w', transaction callback w = (fst (callback (snd (client_begin w))), w') /\
    frame w' = frame (let r := callback (snd (client_begin w)) in
                      match fst r with
                      | Ok _ => snd (client_commit (snd r))
                      | Throw _ => snd (client_rollback (snd r))
                      | Exit _ => snd r
                      end).
Proof.
  intros Hb Hp Hs.
  destruct (transaction_run callback w Hp Hs) as (w0 & w1 & w' & -> & H0 & H1 & H').
  assert (Hbb : frame w1 = frame (snd (client_begin w))).
  { rewrite H1. apply client_begin_blind. done. }
  destruct (Hb _ _ Hbb) as [Ho Hw]. exists w'. split; [congruence|].
  rewrite H'. cbv zeta. rewrite Ho.
  destruct (fst (callback (snd (client_begin w))));
    [apply client_commit_blind|apply client_rollback_blind|]; done.
Qed.
End ManagerFacts.

Section MigratorFacts.
Context `{P : Platform}.
Variable context : MigrationContext.

Lemma isMigrationApplied_run v w rows :
  pool w = true -> server_up w = true -> schema_migrations (db w) = Some rows ->
  exists w',
    isMigrationApplied v w =
      (Ok (option_map (fun r => (r_checksum r, r_environment r))
                      (tracking_record v (db w))), w') /\
    frame w' = frame w.
Proof.
  intros Hp Hs Ht. unfold isMigrationApplied. unfold bind.
  destruct (query_blind_run
              "SELECT checksum, environment FROM schema_migrations WHERE version = $1"
              (client_select_migration v) w
              (client_select_migration_blind v) Hp Hs) as (w' & -> & Hf).
  unfold tracking_record, client_select_migration in *. rewrite Ht in *. simpl in *.
  exists w'. split; [|done].
  destruct (List.filter _ rows); reflexivity.
Qed.

Lemma createMigrationsTable_run w :
  pool w = true -> server_up w = true ->
  exists w', createMigrationsTable w = (Ok tt, w') /\
    frame w' = frame (snd (client_create_migrations_table w)).
Proof.
  intros Hp Hs. unfold createMigrationsTable.
  destruct (query_blind_run createTableQuery
              client_create_migrations_table w
              client_create_migrations_table_blind Hp Hs) as (w' & -> & Hf).
  eauto.
Qed.

Lemma healthCheck_run w :
  exists w', healthCheck w = (Ok (pool w && server_up w), w') /\ frame w' = frame w.
Proof.
  unfold healthCheck, try_catch. unfold bind.
  destruct (query_run "SELECT 1 as health_check" client_select_1 w)
    as (w1 & w' & -> & H1 & H').
  destruct (pool w), (server_up w); simpl in *; eauto.
  unfold ret. eexists; split; [reflexivity|]. congruence.
Qed.

Lemma applyMigration_callback_blind m content :
  audit_blind
    (try_catch
       (client_script content;;
        client_insert_migration (version m) (description m)
          (generateChecksum content) (environment context);;
        console (LogApplied (version m)))
       (fun error => throw error)).
Proof.
  apply try_catch_blind; [|intros; apply throw_blind].
  apply bind_blind; [apply client_script_blind|intros _].
  apply bind_blind; [apply client_insert_migration_blind|intros _].
  apply console_blind.
Qed.

Lemma applyMigration_callback_run m content wb rows :
  schema_migrations (db wb) = Some rows ->
  snapshot wb = Some (db wb) ->
  exists r wc,
    try_catch
      (client_script content;;
       client_insert_migration (version m) (description m)
         (generateChecksum content) (environment context);;
       console (LogApplied (version m)))
      (fun error => throw error) wb = (r, wc) /\
    server_up wc = server_up wb /\ pool wc = pool wb /\
    snapshot wc = Some (rolled_back content (db wb)) /\ now wc = now wb /\
    let row := {| r_version := version m;
                  r_description := description m;
                  r_applied_at := now wb;
                  r_checksum := sha256_hex content;
                  r_environment := environment context |} in
    if snd (run_sql content (schema (db wb))) then
      match insert_violation row rows with
      | None =>
          r = Ok tt /\
          db wc = {| schema := fst (run_sql content (schema (db wb)));
                     schema_migrations := Some (rows ++ [row]) |} /\
          trace wc = trace wb ++ [EvScript content; EvInsert (version m);
                                  LogApplied (version m)]
      | Some e =>
          r = Throw e /\
          trace wc = trace wb ++ [EvScript content; EvInsert (version m)]
      end
    else
      r = Throw (ScriptError content) /\
      trace wc = trace wb ++ [EvScript content].
Proof.
  intros Ht Hsnap.
  unfold try_catch, bind, client_script, client_insert_migration, generateChecksum,
    console, modify, throw, rolled_back.
  cbn [emit set_db db schema schema_migrations now trace server_up pool snapshot].
  rewrite Hsnap.
  destruct (run_sql content (schema (db wb))) as [s' [|]];
    destruct (rollback_point content (schema (db wb))) as [d|];
    cbn [fst snd emit set_db set_snapshot db schema schema_migrations now trace
         server_up pool snapshot];
    rewrite ?Ht;
    try match goal with |- context [insert_violation ?r ?l] =>
      destruct (insert_violation r l) end;
    do 2 eexists; (split; [reflexivity|]);
    cbn [fst snd emit set_db set_snapshot db schema schema_migrations now trace
         server_up pool snapshot];
    rewrite <- ?app_assoc, ?Hsnap; tauto.
Qed.

(** What [applyMigration] does, case by case. *)
Lemma applyMigration_run m w rows :
  pool w = true -> server_up w = true -> snapshot w = None ->
  schema_migrations (db w) = Some rows ->
  exists r w',
    applyMigration context m w = (r, w') /\
    server_up w' = true /\ pool w' = true /\ snapshot w' = None /\ now w' = now w /\
    match readFileSync (path m) with
    | None =>
        r = Throw (FileNotFound (path m)) /\ db w' = db w /\
        trace w' = trace w ++ [LogProcessing (version m)]
    | Some content =>
        match tracking_record (version m) (db w) with
        | Some row =>
            if String.eqb (r_checksum row) (sha256_hex content) then
              r = Ok tt /\ db w' = db w /\
              trace w' = trace w ++ [LogProcessing (version m);
                                     LogAlreadyApplied (version m)]
            else
              r = Throw (ChecksumMismatch (version m) (r_checksum row)
                                          (sha256_hex content)) /\
              db w' = db w /\
              trace w' = trace w ++ [LogProcessing (version m)]
        | None =>
            let row := {| r_version := version m;
                          r_description := description m;
                          r_applied_at := now w;
                          r_checksum := sha256_hex content;
                          r_environment := environment context |} in
            if snd (run_sql content (schema (db w))) then
              match insert_violation row rows with
              | None =>
                  r = Ok tt /\
                  db w' = {| schema := fst (run_sql content (schema (db w)));
                             schema_migrations := Some (rows ++ [row]) |} /\
                  trace w' = trace w ++ [LogProcessing (version m); EvBegin;
                                         EvScript content; EvInsert (version m);
                                         LogApplied (version m); EvCommit]
              | Some e =>
                  r = Throw e /\ db w' = rolled_back content (db w) /\
                  trace w' = trace w ++ [LogProcessing (version m); EvBegin;
                                         EvScript content; EvInsert (version m);
                                         EvRollback]
              end
            else
              r = Throw (ScriptError content) /\
              db w' = rolled_back content (db w) /\
              trace w' = trace w ++ [LogProcessing (version m); EvBegin;
                                     EvScript content; EvRollback]
        end
    end.
Proof.
  intros Hp Hs Hn Ht. unfold applyMigration.
  unfold bind at 1. unfold console at 1, modify at 1.
  unfold bind at 1. unfold readFile.
  destruct (readFileSync (path m)) as [content|].
  2:{ unfold throw. do 2 eexists. split; [reflexivity|]. simpl. tauto. }
  unfold ret at 1. unfold bind at 1.
  set (w0 := emit (LogProcessing (version m)) w).
  destruct (isMigrationApplied_run (version m) w0 rows) as (w1 & -> & Hf1); [done..|].
  apply frame_inv in Hf1 as (Hu1 & Hd1 & Hs1 & Hp1 & Hn1 & Ht1).
  subst w0. simpl in Hu1, Hd1, Hs1, Hp1, Hn1, Ht1. simpl.
  rewrite Hs in Hu1. rewrite Hp in Hp1. rewrite Hn in Hs1.
  destruct (tracking_record (version m) (db w)) as [row|] eqn:Hrec; simpl.
  - unfold generateChecksum.
    destruct (String.eqb (r_checksum row) (sha256_hex content)).
    + unfold console, modify. do 2 eexists. split; [reflexivity|]. simpl.
      rewrite Hu1, Hd1, Hs1, Hp1, Hn1, Ht1. rewrite <- ?app_assoc. tauto.
    + unfold throw. do 2 eexists. split; [reflexivity|].
      rewrite Hu1, Hd1, Hs1, Hp1, Hn1, Ht1. tauto.
  - destruct (transaction_blind_run _ w1 (applyMigration_callback_blind m content))
      as (w2 & -> & Hf2); [done..|].
    set (wb := snd (client_begin w1)) in *.
    assert (Hwb : server_up wb = true /\ pool wb = true /\ snapshot wb = Some (db w) /\
                  now wb = now w /\ db wb = db w /\
                  trace wb = trace w ++ [LogProcessing (version m); EvBegin]).
    { subst wb. unfold client_begin, modify. simpl. rewrite Hs1. simpl.
      rewrite Hu1, Hp1, Hn1, Hd1, Ht1, <- app_assoc. tauto. }
    destruct Hwb as (Hub & Hpb & Hsb & Hnb & Hdb & Htb).
    destruct (applyMigration_callback_run m content wb rows) as
      (r & wc & Hcb & Huc & Hpc & Hsc & Hnc & Hcases); [congruence|congruence|].
    rewrite Hdb in Hsc.
    rewrite Hcb in *. cbv zeta in Hf2. cbn [fst snd] in *.
    exists r, w2. split; [reflexivity|].
    apply frame_inv in Hf2 as (Hu2 & Hd2 & Hs2 & Hp2 & Hn2 & Ht2).
    rewrite Hu2, Hd2, Hs2, Hp2, Hn2, Ht2. clear Hu2 Hd2 Hs2 Hp2 Hn2 Ht2.
    rewrite Hdb, Hnb in Hcases. cbv zeta in Hcases. cbv zeta.
    destruct (snd (run_sql content (schema (db w)))).
    + match goal with |- context [insert_violation ?r ?l] =>
        destruct (insert_violation r l) end.
      * destruct Hcases as (-> & Htc).
        unfold client_rollback, modify. simpl. rewrite Hsc. simpl.
        rewrite Huc, Hpc, Hnc, Htc, Htb, Hub, Hpb, Hnb, <- ?app_assoc. simpl. tauto.
      * destruct Hcases as (-> & Hdc & Htc).
        unfold client_commit, modify. simpl.
        rewrite Huc, Hpc, Hnc, Hdc, Htc, Htb, Hub, Hpb, Hnb, <- ?app_assoc. simpl. tauto.
    + destruct Hcases as (-> & Htc).
      unfold client_rollback, modify. simpl. rewrite Hsc. simpl.
      rewrite Huc, Hpc, Hnc, Htc, Htb, Hub, Hpb, Hnb, <- ?app_assoc. simpl. tauto.
Qed.
(** Whether and how [applyMigration] fails depends on the database alone. *)
Lemma applyMigration_outcome m w1 w2 rows :
  pool w1 = true -> server_up w1 = true -> snapshot w1 = None ->
  pool w2 = true -> server_up w2 = true -> snapshot w2 = None ->
  schema_migrations (db w1) = Some rows -> db w2 = db w1 ->
  fst (applyMigration context m w2) = fst (applyMigration context m w1).
Proof.
  intros Hp1 Hs1 Hn1 Hp2 Hs2 Hn2 Ht Hd.
  destruct (applyMigration_run m w1 rows Hp1 Hs1 Hn1 Ht)
    as (r1 & w1' & -> & _ & _ & _ & _ & H1).
  destruct (applyMigration_run m w2 rows Hp2 Hs2 Hn2)
    as (r2 & w2' & -> & _ & _ & _ & _ & H2); [congruence|].
  rewrite Hd in H2. simpl.
  destruct (readFileSync (path m)) as [content|]; [|destruct H1 as [-> _], H2 as [-> _]; done].
  destruct (tracking_record (version m) (db w1)) as [row|].
  - destruct (String.eqb _ _); destruct H1 as [-> _], H2 as [-> _]; done.
  - cbv zeta in H1, H2.
    destruct (snd (run_sql content (schema (db w1))));
      [|destruct H1 as [-> _], H2 as [-> _]; done].
    unfold insert_violation in H1, H2. cbn [r_version r_checksum r_environment] in H1, H2.
    repeat case_match; destruct H1 as [-> _], H2 as [-> _]; congruence.
Qed.
End MigratorFacts.

Section TrackingFacts.
Context `{P : Platform}.

Lemma attempted_app t1 t2 : attempted (t1 ++ t2) = attempted t1 ++ attempted t2.
Proof. induction t1 as [|[] t1 IH]; simpl; congruence. Qed.
Lemma applied_app t1 t2 : applied (t1 ++ t2) = applied t1 ++ applied t2.
Proof. induction t1 as [|[] t1 IH]; simpl; congruence. Qed.
Lemma executed_app t1 t2 : executed (t1 ++ t2) = executed t1 ++ executed t2.
Proof. induction t1 as [|[] t1 IH]; simpl; congruence. Qed.
Lemma inserted_app t1 t2 : inserted (t1 ++ t2) = inserted t1 ++ inserted t2.
Proof. induction t1 as [|[] t1 IH]; simpl; congruence. Qed.
Lemma reported_app t1 t2 : reported (t1 ++ t2) = reported t1 ++ reported t2.
Proof. induction t1 as [|[] t1 IH]; simpl; congruence. Qed.
Lemma failures_app t1 t2 : failures (t1 ++ t2) = failures t1 ++ failures t2.
Proof. induction t1 as [|[] t1 IH]; simpl; congruence. Qed.

Lemma rolled_back_tracking content s :
  schema_migrations (rolled_back content s) = schema_migrations s.
Proof. unfold rolled_back. by destruct (rollback_point _ _). Qed.

Lemma unwound_tracking m s : schema_migrations (unwound m s) = schema_migrations s.
Proof.
  unfold unwound. destruct (readFileSync _); [|done].
  destruct (tracking_record _ _); [done|]. apply rolled_back_tracking.
Qed.

Lemma unwound_keeps m s : keeps_transaction s m -> unwound m s = s.
Proof.
  unfold unwound, keeps_transaction, rolled_back. intros Hk.
  destruct (readFileSync _) as [content|]; [|done].
  destruct (tracking_record _ _); [done|]. by rewrite (Hk content eq_refl).
Qed.

Lemma tracking_record_rows v s rows :
  schema_migrations s = Some rows ->
  tracking_record v s = head (List.filter (fun r => String.eqb (r_version r) v) rows).
Proof. unfold tracking_record. intros ->. reflexivity. Qed.

Lemma head_filter_None v rows :
  head (List.filter (fun r => String.eqb (r_version r) v) rows) = None <->
  ~ In v (List.map r_version rows).
Proof.
  induction rows as [|r rows IH]; simpl; [tauto|].
  destruct (String.eqb (r_version r) v) eqn:E; simpl.
  - apply String.eqb_eq in E. split; [discriminate|]. intros H. exfalso. auto.
  - apply String.eqb_neq in E. rewrite IH. tauto.
Qed.

Lemma head_filter_app_Some v rows rows' r :
  head (List.filter (fun r => String.eqb (r_version r) v) rows) = Some r ->
  head (List.filter (fun r => String.eqb (r_version r) v) (rows ++ rows')) = Some r.
Proof.
  rewrite List.filter_app. destruct (List.filter _ rows); simpl; [discriminate|auto].
Qed.

Lemma head_filter_app_None v rows rows' :
  head (List.filter (fun r => String.eqb (r_version r) v) rows) = None ->
  head (List.filter (fun r => String.eqb (r_version r) v) (rows ++ rows')) =
  head (List.filter (fun r => String.eqb (r_version r) v) rows').
Proof.
  rewrite List.filter_app. destruct (List.filter _ rows); simpl; [auto|discriminate].
Qed.

(** Rows are only ever appended, so a record that exists stays the one
    the SELECT returns. *)
Lemma tracking_record_grows v s s' rows rows' r :
  schema_migrations s = Some rows ->
  schema_migrations s' = Some (rows ++ rows') ->
  tracking_record v s = Some r -> tracking_record v s' = Some r.
Proof.
  intros H H'. rewrite (tracking_record_rows v s rows H),
    (tracking_record_rows v s' _ H'). apply head_filter_app_Some.
Qed.

Lemma recorded_grows s s' rows rows' m :
  schema_migrations s = Some rows ->
  schema_migrations s' = Some (rows ++ rows') ->
  recorded s m -> recorded s' m.
Proof.
  intros H H' (content & row & Hc & Hr & Hk). exists content, row.
  split; [exact Hc|]. split; [|exact Hk].
  exact (tracking_record_grows _ s s' rows rows' row H H' Hr).
Qed.
End TrackingFacts.

Section LoopFacts.
Context `{P : Platform}.
Variable context : MigrationContext.

(** One unit, summarised. *)
Lemma applyMigration_step m w rows :
  pool w = true -> server_up w = true -> snapshot w = None ->
  schema_migrations (db w) = Some rows ->
  exists r w' rows',
    applyMigration context m w = (r, w') /\
    server_up w' = true /\ pool w' = true /\ snapshot w' = None /\ now w' = now w /\
    attempted (trace w') = attempted (trace w) ++ [version m] /\
    applied (trace w') = applied (trace w) ++ List.map r_version rows' /\
    reported (trace w') = reported (trace w) /\
    failures (trace w') = failures (trace w) /\
    match r with
    | Ok _ =>
        schema_migrations (db w') = Some (rows ++ rows') /\
        recorded (db w') m /\
        match tracking_record (version m) (db w) with
        | Some _ => rows' = [] /\ db w' = db w
        | None => exists row, rows' = [row] /\ r_version row = version m
        end
    | Throw e => db w' = unwound m (db w) /\ rows' = []
    | Exit _ => False
    end.
Proof.
  intros Hp Hs Hn Ht.
  destruct (applyMigration_run context m w rows Hp Hs Hn Ht)
    as (r & w' & Heq & Hu' & Hp' & Hs' & Hn' & Hcases).
  exists r, w'.
  unfold recorded, unwound.
  destruct (readFileSync (path m)) as [content|] eqn:Hfile.
  2:{ destruct Hcases as (-> & Hd & Htr). exists [].
      rewrite Htr, attempted_app, applied_app, reported_app, failures_app. simpl.
      rewrite ?app_nil_r. tauto. }
  destruct (tracking_record (version m) (db w)) as [row|] eqn:Hrec.
  - destruct (String.eqb (r_checksum row) (sha256_hex content)) eqn:Hsum;
      destruct Hcases as (-> & Hd & Htr); exists [];
      rewrite Htr, attempted_app, applied_app, reported_app, failures_app; simpl; rewrite ?app_nil_r.
    + apply String.eqb_eq in Hsum. rewrite Hd, Ht, Hrec. repeat split; eauto.
    + tauto.
  - cbv zeta in Hcases.
    destruct (snd (run_sql content (schema (db w)))).
    + match type of Hcases with context [insert_violation ?r ?l] =>
        destruct (insert_violation r l) eqn:Hviol; set (row := r) in * end.
      * destruct Hcases as (-> & Hd & Htr). exists [].
        rewrite Htr, attempted_app, applied_app, reported_app, failures_app; simpl; rewrite ?app_nil_r. tauto.
      * destruct Hcases as (-> & Hd & Htr). exists [row].
        rewrite Htr, attempted_app, applied_app, reported_app, failures_app; simpl.
        rewrite ?app_nil_r. rewrite Hd. simpl.
        do 10 (split; [done|]). split; [|eauto].
        exists content, row. split; [done|]. split; [|done].
        unfold tracking_record. simpl.
        rewrite (tracking_record_rows _ _ _ Ht) in Hrec.
        rewrite (head_filter_app_None _ _ _ Hrec). simpl.
        rewrite String.eqb_refl. reflexivity.
    + destruct Hcases as (-> & Hd & Htr). exists [].
      rewrite Htr, attempted_app, applied_app, reported_app, failures_app; simpl; rewrite ?app_nil_r. tauto.
Qed.

(** One turn of the loop of [migrate], for any continuation. *)
Lemma iteration_run m (k : nat -> M nat) n w rows :
  pool w = true -> server_up w = true -> snapshot w = None ->
  schema_migrations (db w) = Some rows ->
  let w1 := snd (isMigrationApplied (version m) w) in
    frame w1 = frame w /\
    (wasApplied <- isMigrationApplied (version m);;
     applyMigration context m;;
     k (match wasApplied with None => S n | Some _ => n end)) w =
    match applyMigration context m w1 with
    | (Ok _, w2) =>
        k (match tracking_record (version m) (db w) with
           | None => S n | Some _ => n end) w2
    | (Throw e, w2) => (Throw e, w2)
    | (Exit c, w2) => (Exit c, w2)
    end.
Proof.
  intros Hp Hs Hn Ht. unfold bind at 1.
  destruct (isMigrationApplied_run (version m) w rows Hp Hs Ht) as (w1 & -> & Hf).
  simpl. split; [done|]. unfold bind.
  destruct (applyMigration context m w1) as [[[]|e|c] w2]; try reflexivity.
  destruct (tracking_record (version m) (db w)); reflexivity.
Qed.

Lemma migrate_loop_app pre : forall rest n w,
  migrate_loop context (pre ++ rest) n w =
  (n' <- migrate_loop context pre n;; migrate_loop context rest n') w.
Proof.
  induction pre as [|m pre IH]; intros rest n w; simpl.
  - reflexivity.
  - unfold bind.
    destruct (isMigrationApplied (version m) w) as [[wa|e|c] w1]; try reflexivity.
    destruct (applyMigration context m w1) as [[[]|e|c] w2]; try reflexivity.
    rewrite IH. reflexivity.
Qed.

Lemma migrate_loop_run cat : forall n w rows,
  pool w = true -> server_up w = true -> snapshot w = None ->
  schema_migrations (db w) = Some rows ->
  exists r w' rows',
    migrate_loop context cat n w = (r, w') /\
    server_up w' = true /\ pool w' = true /\ snapshot w' = None /\ now w' = now w /\
    schema_migrations (db w') = Some (rows ++ rows') /\
    applied (trace w') = applied (trace w) ++ List.map r_version rows' /\
    reported (trace w') = reported (trace w) /\
    failures (trace w') = failures (trace w) /\
    NoDup (List.map r_version rows') /\
    (forall v, In v (List.map r_version rows') -> ~ In v (List.map r_version rows)) /\
    match r with
    | Ok n' =>
        n' = n + List.length rows' /\
        attempted (trace w') = attempted (trace w) ++ List.map version cat /\
        Forall (recorded (db w')) cat
    | Throw e =>
        exists pre u post n1 w1,
          cat = pre ++ u :: post /\
          migrate_loop context pre n w = (Ok n1, w1) /\
          db w' = unwound u (db w1) /\
          (forall wu, pool wu = true -> server_up wu = true -> snapshot wu = None ->
                      db wu = db w1 ->
                      fst (applyMigration context u wu) = Throw e) /\
          attempted (trace w') = attempted (trace w) ++ List.map version (pre ++ [u]) /\
          Forall (recorded (db w')) pre
    | Exit _ => False
    end.
Proof.
  induction cat as [|m rest IH]; intros n w rows Hp Hs Hn Ht.
  - exists (Ok n), w, []. simpl. rewrite !app_nil_r.
    repeat split; auto using NoDup_nil_2.
  - cbn [migrate_loop].
    destruct (iteration_run m (migrate_loop context rest) n w rows Hp Hs Hn Ht)
      as (Hf1 & ->).
    set (w1 := snd (isMigrationApplied (version m) w)) in *.
    apply frame_inv in Hf1 as (Hu1 & Hd1 & Hs1 & Hp1 & Hn1 & Ht1).
    destruct (applyMigration_step m w1 rows) as
      (r & w2 & rows1 & Heq & Hu2 & Hp2 & Hs2 & Hn2 & Hatt & Happ & Hrep & Hfail & Hcases);
      [congruence..|].
    rewrite Heq. rewrite Hd1 in Hcases. rewrite Ht1 in Hatt, Happ, Hrep, Hfail.
    destruct r as [[]|e|c]; [| |done].
    + destruct Hcases as (Ht2 & Hrec2 & Hnew).
      set (n' := match tracking_record (version m) (db w) with
                 | Some _ => n | None => S n end).
      destruct (IH n' w2 _ Hp2 Hu2 Hs2 Ht2) as
        (r & w3 & rows2 & Heq3 & Hu3 & Hp3 & Hs3 & Hn3 & Ht3 & Happ3 & Hrep3 & Hfail3 &
         Hnd & Hfresh & Hr).
      exists r, w3, (rows1 ++ rows2). split; [done|]. split; [done|]. split; [done|].
      split; [done|]. split; [congruence|]. split; [by rewrite Ht3, app_assoc|].
      split; [by rewrite Happ3, Happ, List.map_app, app_assoc|].
      split; [congruence|]. split; [congruence|].
      assert (Hrows1 : ~ (exists v, In v (List.map r_version rows1) /\
                                    In v (List.map r_version rows)) /\
                       NoDup (List.map r_version rows1) /\
                       n' = n + List.length rows1).
      { subst n'. destruct (tracking_record (version m) (db w)) eqn:Hrec.
        - destruct Hnew as [-> _]. simpl. split; [|split; [apply NoDup_nil_2|lia]].
          intros (v & [] & _).
        - destruct Hnew as (row & -> & Hv). simpl.
          split; [|split; [apply NoDup_singleton|lia]].
          intros (v & [<-|[]] & Hin). rewrite Hv in Hin.
          rewrite (tracking_record_rows _ _ _ Ht) in Hrec.
          apply head_filter_None in Hrec. done. }
      destruct Hrows1 as (Hdisj & Hnd1 & Hn').
      split.
      { rewrite List.map_app. apply NoDup_app. split; [done|]. split; [|done].
        intros v Hv1 Hv2. apply list_elem_of_In in Hv1, Hv2.
        apply (Hfresh v Hv2). rewrite List.map_app. apply in_or_app. auto. }
      split.
      { intros v Hv Hin. rewrite List.map_app in Hv. apply in_app_or in Hv as [Hv|Hv].
        - apply Hdisj. eauto.
        - apply (Hfresh v Hv). rewrite List.map_app. apply in_or_app. auto. }
      destruct r as [n3|e|c]; [| |done].
      * destruct Hr as (-> & Hatt3 & Hall). split; [rewrite length_app; lia|].
        split; [rewrite Hatt3, Hatt; simpl; by rewrite <- app_assoc|].
        constructor; [|done].
        eapply recorded_grows; [exact Ht2|exact Ht3|exact Hrec2].
      * destruct Hr as (pre & u & post & n1 & w4 & -> & Hpre & Hd4 & Hout & Hatt3 & Hall).
        exists (m :: pre), u, post, n1, w4. split; [done|].
        split.
        { cbn [migrate_loop].
          destruct (iteration_run m (migrate_loop context pre) n w rows Hp Hs Hn Ht)
            as (_ & ->).
          fold w1. rewrite Heq. exact Hpre. }
        split; [done|]. split; [exact Hout|].
        split; [rewrite Hatt3, Hatt; simpl; by rewrite <- app_assoc|].
        constructor; [|done].
        eapply recorded_grows; [exact Ht2|exact Ht3|exact Hrec2].
    + destruct Hcases as (Hd2 & ->).
      simpl in Happ. rewrite app_nil_r in Happ.
      exists (Throw e), w2, []. rewrite app_nil_r. simpl. rewrite app_nil_r.
      split; [done|]. split; [done|]. split; [done|]. split; [done|].
      split; [congruence|]. split; [by rewrite Hd2, unwound_tracking|]. split; [done|].
      split; [done|]. split; [done|].
      split; [apply NoDup_nil_2|]. split; [tauto|].
      exists [], m, rest, n, w. simpl.
      split; [done|]. split; [done|]. split; [done|]. split; [|by split].
      intros wu Hpu Hsu Hnu Hdu.
      rewrite (applyMigration_outcome context m w1 wu rows); [by rewrite Heq|congruence..].
Qed.
End LoopFacts.

Section RunFacts.
Context `{P : Platform}.
Variable context : MigrationContext.

Lemma migrate_unhealthy cat w :
  pool w && server_up w = false ->
  exists w', migrate context cat w = (Exit 1, w') /\
    db w' = db w /\ snapshot w' = snapshot w /\
    trace w' = trace w ++ [LogMigrationFailed DatabaseUnhealthy].
Proof.
  intros Hd. unfold migrate. unfold_monad.
  destruct (healthCheck_run w) as (w1 & Hh & Hf). rewrite Hh, Hd.
  apply frame_inv in Hf as (Hu1 & Hd1 & Hs1 & Hp1 & Hn1 & Ht1).
  simpl. eexists. split; [reflexivity|]. simpl.
  rewrite Hd1, Hs1, Ht1. tauto.
Qed.

(** A run that reaches the database: the world in which the loop starts,
    and what [migrate] makes of the result of the loop. *)
Lemma migrate_healthy cat w :
  pool w = true -> server_up w = true ->
  let w0 := snd (createMigrationsTable (snd (healthCheck w))) in
    frame w0 = frame (snd (client_create_migrations_table w)) /\
    forall r wl, migrate_loop context cat 0 w0 = (r, wl) -> pool wl = true ->
      match r with
      | Ok n =>
          exists w', migrate context cat w = (Ok tt, w') /\
            db w' = db wl /\ snapshot w' = snapshot wl /\ pool w' = false /\
            trace w' = trace wl ++ [LogComplete n]
      | Throw e =>
          exists w', migrate context cat w = (Exit 1, w') /\
            db w' = db wl /\ snapshot w' = snapshot wl /\
            trace w' = trace wl ++ [LogMigrationFailed e]
      | Exit c => migrate context cat w = (Exit c, wl)
      end.
Proof.
  intros Hp Hs. unfold migrate, getMigrationFiles, close. unfold_monad. cbv zeta.
  destruct (healthCheck_run w) as (w1 & Hh & Hf). rewrite Hh, Hp, Hs. simpl.
  apply frame_inv in Hf as (Hu1 & Hd1 & Hs1 & Hp1 & Hn1 & Ht1).
  destruct (createMigrationsTable_run w1) as (w0 & Hc & Hf0); [congruence..|].
  rewrite Hc. simpl. split.
  { rewrite Hf0. apply client_create_migrations_table_blind.
    unfold frame. congruence. }
  intros r wl Hloop Hpl. rewrite Hloop.
  destruct r as [n|e|c]; [| |reflexivity]; simpl.
  - rewrite Hpl. eexists. split; [reflexivity|]. simpl. tauto.
  - eexists. split; [reflexivity|]. simpl. tauto.
Qed.

(** Units that are all recorded are all skipped. *)
Lemma migrate_loop_skip cat : forall n w rows,
  pool w = true -> server_up w = true -> snapshot w = None ->
  schema_migrations (db w) = Some rows ->
  Forall (recorded (db w)) cat ->
  exists w', migrate_loop context cat n w = (Ok n, w') /\
    server_up w' = true /\ pool w' = true /\ snapshot w' = None /\
    db w' = db w /\
    trace w' = trace w ++
      flat_map (fun m => [LogProcessing (version m); LogAlreadyApplied (version m)]) cat.
Proof.
  induction cat as [|m rest IH]; intros n w rows Hp Hs Hn Ht Hall.
  - exists w. simpl. rewrite app_nil_r. tauto.
  - apply Forall_cons in Hall as [(content & row & Hfile & Hrec & Hsum) Hall].
    cbn [migrate_loop].
    destruct (iteration_run context m (migrate_loop context rest) n w rows Hp Hs Hn Ht)
      as (Hf1 & ->).
    set (w1 := snd (isMigrationApplied (version m) w)) in *.
    apply frame_inv in Hf1 as (Hu1 & Hd1 & Hs1 & Hp1 & Hn1 & Ht1).
    destruct (applyMigration_run context m w1 rows) as
      (r & w2 & -> & Hu2 & Hp2 & Hs2 & Hn2 & Hcases); [congruence..|].
    rewrite Hfile, Hd1, Hrec, Hsum, String.eqb_refl in Hcases.
    destruct Hcases as (-> & Hd2 & Htr). rewrite Hrec.
    destruct (IH n w2 rows) as (w' & -> & Hu' & Hp' & Hs' & Hd' & Ht');
      [done|done|done|congruence|by rewrite Hd2|].
    exists w'. split; [done|]. split; [done|]. split; [done|]. split; [done|].
    split; [congruence|]. rewrite Ht', Htr, Ht1. simpl. by rewrite <- app_assoc.
Qed.
End RunFacts.

Section MigrationClaims.
Context `{P : Platform}.
Variable context : MigrationContext.

(** The world in which the loop of [migrate] starts. *)
Lemma migrate_start w :
  pool w = true -> server_up w = true -> snapshot w = None ->
  let w0 := snd (createMigrationsTable (snd (healthCheck w))) in
  pool w0 = true /\ server_up w0 = true /\ snapshot w0 = None /\
  trace w0 = trace w /\ now w0 = now w /\
  schema (db w0) = schema (db w) /\
  schema_migrations (db w0) = Some (default [] (schema_migrations (db w))) /\
  (forall rows, schema_migrations (db w) = Some rows -> db w0 = db w).
Proof.
  intros Hp Hs Hn.
  destruct (migrate_healthy context [] w Hp Hs) as [Hf _].
  apply frame_inv in Hf as (Hu1 & Hd1 & Hs1 & Hp1 & Hn1 & Ht1).
  simpl in *. rewrite Hu1, Hd1, Hs1, Hp1, Hn1, Ht1. simpl.
  do 6 (split; [done|]). split.
  - destruct (schema_migrations (db w)); reflexivity.
  - intros rows Hr. rewrite Hr. destruct (db w); simpl in *. congruence.
Qed.

Lemma drifted_rows s m row content :
  drifted s m row content -> exists rows, schema_migrations s = Some rows.
Proof.
  intros (_ & Hr & _). unfold tracking_record in Hr.
  destruct (schema_migrations s); [eauto|discriminate].
Qed.

(** C1.  A unit whose version has a tracking record with a checksum other
    than the digest of the present content is never applied:
    [applyMigration] throws the checksum-mismatch error, sends neither the
    script nor an INSERT to the server and leaves the database as it was;
    a run of [migrate] over a catalog that contains such a unit ends with
    exit code 1 and the record is still the one [isMigrationApplied]
    finds; and when the units before it are all recorded, the failure
    that is reported is the checksum mismatch and the database is
    unchanged. *)
Theorem drift_detected (m : MigrationFile) row content :
  (forall w,
      pool w = true -> server_up w = true -> snapshot w = None ->
      drifted (db w) m row content ->
      exists w',
        applyMigration context m w =
          (Throw (ChecksumMismatch (version m) (r_checksum row) (sha256_hex content)),
           w') /\
        db w' = db w /\
        executed (trace w') = executed (trace w) /\
        inserted (trace w') = inserted (trace w)) /\
  (forall cat w,
      In m cat -> pool w = true -> snapshot w = None ->
      drifted (db w) m row content ->
      exists w',
        migrate context cat w = (Exit 1, w') /\
        tracking_record (version m) (db w') = Some row) /\
  (forall pre post w,
      Forall (recorded (db w)) pre ->
      pool w = true -> server_up w = true -> snapshot w = None ->
      drifted (db w) m row content ->
      exists w',
        migrate context (pre ++ m :: post) w = (Exit 1, w') /\
        db w' = db w /\
        failures (trace w') = failures (trace w) ++
          [ChecksumMismatch (version m) (r_checksum row) (sha256_hex content)] /\
        executed (trace w') = executed (trace w)).
Proof.
  split; [|split].
  - intros w Hp Hs Hn Hdr. destruct (drifted_rows _ _ _ _ Hdr) as [rows Ht].
    destruct Hdr as (Hfile & Hrec & Hne).
    destruct (applyMigration_run context m w rows Hp Hs Hn Ht)
      as (r & w' & Heq & _ & _ & _ & _ & Hcases).
    rewrite Hfile, Hrec in Hcases. apply String.eqb_neq in Hne. rewrite Hne in Hcases.
    destruct Hcases as (-> & Hd & Htr). exists w'.
    rewrite Htr, executed_app, inserted_app. simpl. rewrite !app_nil_r. tauto.
  - intros cat w Hin Hp Hn Hdr. destruct (drifted_rows _ _ _ _ Hdr) as [rows Ht].
    destruct (server_up w) eqn:Hs.
    2:{ destruct (migrate_unhealthy context cat w) as (w' & Heq & Hd & _);
          [by rewrite Hp, Hs|].
        exists w'. split; [done|]. rewrite Hd. apply Hdr. }
    destruct (migrate_start w Hp Hs Hn) as (Hp0 & Hs0 & Hn0 & Ht0 & _ & _ & _ & Hd0).
    destruct (migrate_healthy context cat w Hp Hs) as [_ Hrun].
    specialize (Hd0 rows Ht).
    set (w0 := snd (createMigrationsTable (snd (healthCheck w)))) in *.
    destruct (migrate_loop_run context cat 0 w0 rows) as
      (r & wl & rows' & Hloop & _ & Hpl & _ & _ & Htl & _ & _ & _ & _ & _ & Hr);
      [done|done|done|congruence|].
    specialize (Hrun r wl Hloop Hpl).
    assert (Hkeep : tracking_record (version m) (db wl) = Some row).
    { apply (tracking_record_grows _ (db w) (db wl) rows rows' row Ht Htl), Hdr. }
    destruct r as [n|e|c]; [| |done].
    + exfalso. destruct Hr as (_ & _ & Hall).
      rewrite Forall_forall in Hall. apply list_elem_of_In in Hin.
      destruct (Hall m Hin) as (content' & row' & Hf' & Hr' & He).
      destruct Hdr as (Hf & _ & Hne). congruence.
    + destruct Hrun as (w' & Heq & Hd' & _). exists w'. split; [done|]. by rewrite Hd'.
  - intros pre post w Hall Hp Hs Hn Hdr.
    destruct (drifted_rows _ _ _ _ Hdr) as [rows Ht].
    destruct (migrate_start w Hp Hs Hn) as (Hp0 & Hs0 & Hn0 & Ht0 & _ & _ & _ & Hd0).
    destruct (migrate_healthy context (pre ++ m :: post) w Hp Hs) as [_ Hrun].
    specialize (Hd0 rows Ht).
    set (w0 := snd (createMigrationsTable (snd (healthCheck w)))) in *.
    destruct (migrate_loop_skip context pre 0 w0 rows) as
      (w1 & Hskip & Hu1 & Hp1 & Hs1 & Hd1 & Ht1); [done|done|done|congruence|congruence|].
    assert (Hloop : exists w2,
      migrate_loop context (pre ++ m :: post) 0 w0 =
        (Throw (ChecksumMismatch (version m) (r_checksum row) (sha256_hex content)), w2) /\
      pool w2 = true /\ db w2 = db w /\
      trace w2 = trace w1 ++ [LogProcessing (version m)]).
    { rewrite migrate_loop_app. unfold bind at 1. rewrite Hskip.
      cbn [migrate_loop].
      destruct (iteration_run context m (migrate_loop context post) 0 w1 rows)
        as (Hf2 & ->); [done|done|done|congruence|].
      set (w1' := snd (isMigrationApplied (version m) w1)) in *.
      apply frame_inv in Hf2 as (Hu2 & Hd2 & Hs2 & Hp2 & Hn2 & Ht2).
      destruct (applyMigration_run context m w1' rows) as
        (r & w2 & -> & _ & Hp3 & _ & _ & Hcases); [congruence..|].
      destruct Hdr as (Hfile & Hrec & Hne). apply String.eqb_neq in Hne.
      rewrite Hfile, Hd2, Hd1, Hd0, Hrec, Hne in Hcases.
      destruct Hcases as (-> & Hd3 & Ht3). exists w2.
      split; [done|]. split; [done|]. split; [congruence|]. congruence. }
    destruct Hloop as (w2 & Hloop & Hp2 & Hd2 & Ht2).
    destruct (Hrun _ _ Hloop Hp2) as (w' & Heq & Hd' & _ & Ht').
    exists w'. split; [done|]. split; [congruence|].
    rewrite Ht', Ht2, Ht1, Ht0.
    rewrite !failures_app, !executed_app. simpl.
    assert (Hq : forall l : list MigrationFile,
      failures (flat_map (fun m => [LogProcessing (version m);
                                    LogAlreadyApplied (version m)]) l) = [] /\
      executed (flat_map (fun m => [LogProcessing (version m);
                                    LogAlreadyApplied (version m)]) l) = []).
    { induction l; simpl; auto. }
    destruct (Hq pre) as [-> ->]. rewrite !app_nil_r. done.
Qed.


(** C4 (amended).  For a unit without a tracking record whose script
    leaves the transaction it is sent in open, the script and the INSERT of
    the tracking row run between one BEGIN and one COMMIT.  If the script
    fails, or if the script succeeds and the INSERT fails, the transaction
    is rolled back and the database, schema and tracking table, is what it
    was before the unit. *)
Theorem apply_is_atomic (m : MigrationFile) content rows w :
  pool w = true -> server_up w = true -> snapshot w = None ->
  schema_migrations (db w) = Some rows ->
  tracking_record (version m) (db w) = None ->
  readFileSync (path m) = Some content ->
  rollback_point content (schema (db w)) = None ->
  let row := {| r_version := version m;
                r_description := description m;
                r_applied_at := now w;
                r_checksum := sha256_hex content;
                r_environment := environment context |} in
  let result := run_sql content (schema (db w)) in
  exists r w',
    applyMigration context m w = (r, w') /\ snapshot w' = None /\
    ((r = Ok tt /\ snd result = true /\ insert_violation row rows = None /\
      db w' = {| schema := fst result; schema_migrations := Some (rows ++ [row]) |} /\
      trace w' = trace w ++ [LogProcessing (version m); EvBegin; EvScript content;
                             EvInsert (version m); LogApplied (version m); EvCommit])
     \/
     (r = Throw (ScriptError content) /\ snd result = false /\
      db w' = db w /\
      trace w' = trace w ++ [LogProcessing (version m); EvBegin; EvScript content;
                             EvRollback])
     \/
     (exists e, r = Throw e /\ snd result = true /\ insert_violation row rows = Some e /\
      db w' = db w /\
      trace w' = trace w ++ [LogProcessing (version m); EvBegin; EvScript content;
                             EvInsert (version m); EvRollback])).
Proof.
  intros Hp Hs Hn Ht Hrec Hfile Hopen row result.
  destruct (applyMigration_run context m w rows Hp Hs Hn Ht)
    as (r & w' & Heq & _ & _ & Hs' & _ & Hcases).
  exists r, w'. split; [done|]. split; [done|].
  rewrite Hfile, Hrec in Hcases. cbv zeta in Hcases. fold row result in Hcases.
  unfold rolled_back in Hcases. rewrite Hopen in Hcases.
  destruct (snd result).
  - destruct (insert_violation row rows) as [e|].
    + right. right. exists e. tauto.
    + left. tauto.
  - right. left. tauto.
Qed.

(** C5.  A run that reaches the server attempts the units in catalog
    order.  When it succeeds it has attempted all of them and all are
    recorded.  When it fails, some unit of the catalog failed: the run over
    the units before it succeeds, [applyMigration] throws on that unit in
    the database they leave, the run has attempted exactly the units up to
    it and none after it, and what the earlier units applied stays
    committed: their tracking rows are there, and the database is the one
    they left, up to what the failing script itself has committed.  A run
    that does not reach the server attempts nothing. *)
Theorem migrate_in_catalog_order cat w :
  pool w = true -> snapshot w = None ->
  exists r w',
    migrate context cat w = (r, w') /\
    if server_up w then
      match r with
      | Ok _ =>
          attempted (trace w') = attempted (trace w) ++ List.map version cat /\
          Forall (recorded (db w')) cat
      | Exit code =>
          code = 1%Z /\
          exists pre u post e w1,
            cat = pre ++ u :: post /\
            migrate context pre w = (Ok tt, w1) /\
            (forall wu,
                pool wu = true -> server_up wu = true -> snapshot wu = None ->
                db wu = db w1 ->
                fst (applyMigration context u wu) = Throw e) /\
            attempted (trace w') =
              attempted (trace w) ++ List.map version (pre ++ [u]) /\
            failures (trace w') = failures (trace w) ++ [e] /\
            db w' = unwound u (db w1) /\
            schema_migrations (db w') = schema_migrations (db w1) /\
            (keeps_transaction (db w1) u -> db w' = db w1) /\
            Forall (recorded (db w')) pre
      | Throw _ => False
      end
    else
      r = Exit 1 /\
      attempted (trace w') = attempted (trace w) /\ db w' = db w /\
      failures (trace w') = failures (trace w) ++ [DatabaseUnhealthy].
Proof.
  intros Hp Hn.
  destruct (server_up w) eqn:Hs.
  2:{ destruct (migrate_unhealthy context cat w) as (w' & Heq & Hd & _ & Ht);
        [by rewrite Hp, Hs|].
      exists (Exit 1), w'. split; [done|].
      rewrite Ht, attempted_app, failures_app. simpl. rewrite app_nil_r. tauto. }
  destruct (migrate_start w Hp Hs Hn) as (Hp0 & Hs0 & Hn0 & Ht0 & _ & _ & Hrows0 & _).
  destruct (migrate_healthy context cat w Hp Hs) as [_ Hrun].
  set (w0 := snd (createMigrationsTable (snd (healthCheck w)))) in *.
  destruct (migrate_loop_run context cat 0 w0 _ Hp0 Hs0 Hn0 Hrows0) as
    (r & wl & rows' & Hloop & _ & Hpl & Hsl & _ & Htl & Happ & Hrep & Hfail & _ & _ & Hr).
  specialize (Hrun r wl Hloop Hpl).
  destruct r as [n|e|c]; [| |done].
  - destruct Hrun as (w' & Heq & Hd' & _ & _ & Ht').
    exists (Ok tt), w'. split; [done|]. destruct Hr as (_ & Hatt & Hall).
    rewrite Ht', attempted_app, Hatt, Ht0, Hd'. simpl. rewrite app_nil_r. tauto.
  - destruct Hrun as (w' & Heq & Hd' & _ & Ht').
    exists (Exit 1), w'. split; [done|]. split; [done|].
    destruct Hr as (pre & u & post & n1 & w1 & -> & Hpre & Hd1 & Hout & Hatt & Hall).
    destruct (migrate_healthy context pre w Hp Hs) as [_ Hrunpre].
    fold w0 in Hrunpre.
    destruct (migrate_loop_run context pre 0 w0 _ Hp0 Hs0 Hn0 Hrows0) as
      (r1 & wl1 & rows1 & Hloop1 & _ & Hpl1 & _).
    rewrite Hpre in Hloop1. injection Hloop1 as <- <-.
    destruct (Hrunpre _ _ Hpre Hpl1) as (w1' & Heq1 & Hd1' & _).
    exists pre, u, post, e, w1'. split; [done|]. split; [done|].
    rewrite Hd1'. split; [exact Hout|].
    rewrite Ht', attempted_app, failures_app, Hatt, Hfail, Ht0, Hd'. simpl.
    rewrite app_nil_r. split; [done|]. split; [done|]. split; [done|].
    split; [by rewrite Hd1, unwound_tracking|].
    split; [|done]. intros Hk. by rewrite Hd1, unwound_keeps.
Qed.
End MigrationClaims.

Section StatusFacts.
Context `{P : Platform}.

Lemma insert_by_version_perm r rows : insert_by_version r rows ≡ₚ r :: rows.
Proof.
  induction rows as [|r' rows IH]; simpl; [done|].
  destruct (String.leb (r_version r) (r_version r')); [done|].
  rewrite IH. apply Permutation_swap.
Qed.

Lemma order_by_version_perm rows : order_by_version rows ≡ₚ rows.
Proof.
  induction rows as [|r rows IH]; simpl; [done|].
  rewrite insert_by_version_perm. by rewrite IH.
Qed.

Lemma status_run cat w :
  pool w = true -> server_up w = true ->
  exists w',
    status cat w =
      (Ok (order_by_version (default [] (schema_migrations (db w))),
           List.filter
             (fun m => negb (bool_decide
                (version m ∈ (list_to_set
                   (List.map r_version
                      (order_by_version (default [] (schema_migrations (db w)))))
                   : gset string))))
             cat), w') /\
    schema (db w') = schema (db w) /\
    schema_migrations (db w') = Some (default [] (schema_migrations (db w))) /\
    trace w' = trace w.
Proof.
  intros Hp Hs. unfold status, getMigrationFiles, close. unfold_monad. cbv zeta.
  destruct (healthCheck_run w) as (w1 & Hh & Hf). rewrite Hh, Hp, Hs. simpl.
  apply frame_inv in Hf as (Hu1 & Hd1 & Hs1 & Hp1 & Hn1 & Ht1).
  destruct (createMigrationsTable_run w1) as (w0 & Hc & Hf0); [congruence..|].
  rewrite Hc.
  apply frame_inv in Hf0 as (Hu0 & Hd0 & Hs0 & Hp0 & Hn0 & Ht0). simpl in *.
  destruct (query_blind_run
    "SELECT version, description, applied_at, environment FROM schema_migrations ORDER BY version"
    client_select_all_migrations w0 client_select_all_migrations_blind)
    as (w2 & Hq & Hf2); [congruence..|].
  rewrite Hq.
  apply frame_inv in Hf2 as (Hu2 & Hd2 & Hs2 & Hp2 & Hn2 & Ht2).
  assert (Hrows : schema_migrations (db w0) =
                  Some (default [] (schema_migrations (db w)))).
  { rewrite Hd0, Hd1. simpl. destruct (schema_migrations (db w)); reflexivity. }
  unfold client_select_all_migrations in *. rewrite Hrows in *. simpl in *.
  rewrite Hp2, Hp0, Hp1, Hp. simpl.
  eexists. split; [reflexivity|]. simpl.
  rewrite Hd2, Ht2, Ht0, Ht1, Hrows, Hd0, Hd1. simpl. tauto.
Qed.

(** C7 (amended).  [status] lists the rows of the tracking table as
    applied and the catalog units without a row as pending.  No pending
    version is an applied version, and every catalog version is applied
    or pending.  The two sets together are the catalog exactly when every
    tracking row belongs to a unit of the catalog. *)
Theorem status_partition cat w :
  pool w = true -> server_up w = true ->
  exists appliedMigrations pendingMigrations w',
    status cat w = (Ok (appliedMigrations, pendingMigrations), w') /\
    appliedMigrations ≡ₚ default [] (schema_migrations (db w)) /\
    (forall m, In m pendingMigrations <->
               In m cat /\ ~ In (version m) (List.map r_version appliedMigrations)) /\
    (forall v, In v (List.map version pendingMigrations) ->
               ~ In v (List.map r_version appliedMigrations)) /\
    (forall v, In v (List.map version cat) ->
               In v (List.map r_version appliedMigrations) \/
               In v (List.map version pendingMigrations)) /\
    ((forall v, In v (List.map r_version appliedMigrations) ->
                In v (List.map version cat)) ->
     forall v, In v (List.map r_version appliedMigrations) \/
               In v (List.map version pendingMigrations) <->
               In v (List.map version cat)).
Proof.
  intros Hp Hs. destruct (status_run cat w Hp Hs) as (w' & Heq & _).
  do 3 eexists. split; [exact Heq|].
  set (rows := order_by_version (default [] (schema_migrations (db w)))).
  set (pend := List.filter _ cat).
  assert (Hpend : forall m, In m pend <->
                    In m cat /\ ~ In (version m) (List.map r_version rows)).
  { intros m. unfold pend. rewrite List.filter_In, negb_true_iff, bool_decide_eq_false.
    rewrite elem_of_list_to_set, list_elem_of_In. tauto. }
  split; [apply order_by_version_perm|]. split; [exact Hpend|].
  assert (Hcover : forall v, In v (List.map version cat) ->
            In v (List.map r_version rows) \/ In v (List.map version pend)).
  { intros v Hv. apply List.in_map_iff in Hv as (m & <- & Hm).
    destruct (In_dec string_dec (version m) (List.map r_version rows)) as [|Hn]; [auto|].
    right. apply List.in_map. apply Hpend. auto. }
  split.
  { intros v Hv. apply List.in_map_iff in Hv as (m & <- & Hm). apply Hpend, Hm. }
  split; [exact Hcover|].
  intros Hsub v. split; [|apply Hcover].
  intros [Hv|Hv]; [auto|].
  apply List.in_map_iff in Hv as (m & <- & Hm). apply List.in_map, Hpend, Hm.
Qed.
End StatusFacts.

Section GateFacts.







End GateFacts.

Section AuditFacts.
Context `{P : Platform}.

(** C9.  [logAuditEvent] always returns normally and changes nothing but
    the audit table.  Acquiring a connection, a query and a transaction
    have the same outcome and the same effect on everything else
    whatever the state of the audit table, and a query on an open pool
    and a reachable server has the outcome of its statement. *)
Theorem audit_failures_never_propagate :
  (forall eventType details w,
      exists w', logAuditEvent eventType details w = (Ok tt, w') /\ frame w' = frame w) /\
  audit_blind getConnection /\
  (forall A text (stmt : M A), audit_blind stmt -> audit_blind (query text stmt)) /\
  (forall A (callback : M A), audit_blind callback -> audit_blind (transaction callback)) /\
  (forall A text (stmt : M A) w,
      audit_blind stmt -> pool w = true -> server_up w = true ->
      fst (query text stmt w) = fst (stmt w)).
Proof.
  split; [exact logAuditEvent_run|]. split; [exact getConnection_blind|].
  split; [intros A; exact (@query_blind _ A)|].
  split; [intros A; exact (@transaction_blind _ A)|].
  intros A text stmt w Hb Hp Hs.
  destruct (query_blind_run text stmt w Hb Hp Hs) as (w' & -> & _). reflexivity.
Qed.
End AuditFacts.

Section LoaderFacts.
Context `{Nd : Node}.

(** C10.  [buildContext] returns a context exactly when MIGRATION_ENV is
    "local".  An unset or empty value and a value outside local, dev and
    prod are rejected by [detectEnvironment]; dev and prod pass it, have
    no entry in ENVIRONMENT_CONFIGS, and [buildContext] throws on
    reading config.description. *)
Theorem buildContext_only_local (env : gmap string string) :
  ((exists r, buildContext env = inr r) <-> env !! "MIGRATION_ENV" = Some "local") /\
  (env !! "MIGRATION_ENV" = None \/ env !! "MIGRATION_ENV" = Some "" ->
   detectEnvironment env = inl MigrationEnvNotSet) /\
  (forall e, env !! "MIGRATION_ENV" = Some e ->
             e <> "" -> e <> "local" -> e <> "dev" -> e <> "prod" ->
             detectEnvironment env = inl (InvalidMigrationEnv e)) /\
  (forall e, env !! "MIGRATION_ENV" = Some e -> e = "dev" \/ e = "prod" ->
             detectEnvironment env = inr e /\
             ENVIRONMENT_CONFIGS !! e = None /\
             buildContext env = inl (TypeErrorUndefined "description")).
Proof.
  unfold buildContext, detectEnvironment, includes.
  destruct (env !! "MIGRATION_ENV") as [e|] eqn:He.
  2:{ split; [split; [intros [r Hr]; discriminate|discriminate]|].
      split; [done|]. split; intros e; discriminate. }
  destruct (String.eqb_spec e "") as [->|Hne].
  { split; [split; [intros [r Hr]; discriminate|discriminate]|].
    split; [done|]. split.
    - intros e [= <-]. done.
    - intros e [= <-] [|]; discriminate. }
  simpl.
  destruct (String.eqb_spec e "local") as [->|Hl].
  { simpl. unfold ENVIRONMENT_CONFIGS. rewrite lookup_singleton_eq. simpl.
    split; [split; [done|eauto]|].
    split; [intros [|]; discriminate|]. split.
    - intros e [= <-]. done.
    - intros e [= <-] [|]; discriminate. }
  destruct (String.eqb_spec e "dev") as [->|Hd].
  { simpl. unfold ENVIRONMENT_CONFIGS. rewrite lookup_singleton_ne by done.
    split; [split; [intros [r Hr]; discriminate|intros [=]]|].
    split; [intros [|]; discriminate|]. split.
    - intros e [= <-]. done.
    - intros e [= <-] _. done. }
  destruct (String.eqb_spec e "prod") as [->|Hp].
  { simpl. unfold ENVIRONMENT_CONFIGS. rewrite lookup_singleton_ne by done.
    split; [split; [intros [r Hr]; discriminate|intros [=]]|].
    split; [intros [|]; discriminate|]. split.
    - intros e [= <-]. done.
    - intros e [= <-] _. done. }
  simpl.
  split; [split; [intros [r Hr]; discriminate|intros [=]; done]|].
  split; [intros [|]; [discriminate|congruence]|]. split.
  - intros e' [= <-]. done.
  - intros e' [= <-] [|]; done.
Qed.
End LoaderFacts.

Section ManifestFacts.

Lemma create_release_result args date writable file :
  (exists e, create_release args date writable file = (Some e, file)) \/
  (exists VERSION API_SHA WORKERS_SHA DB_SHA,
      create_release args date writable file =
        (None, Some (manifest_document VERSION API_SHA WORKERS_SHA DB_SHA date))).
Proof.
  unfold create_release.
  repeat match goal with
         | |- context [parameter ?a ?n ?m] => destruct (parameter a n m); [eauto|]
         end.
  destruct writable; [right; eauto 10|eauto].
Qed.

Lemma apply_operation_staging_first file op :
  timestamped op = true ->
  (forall m, file = Some m -> staging_first m) ->
  forall m, apply_operation file op = Some m -> staging_first m.
Proof.
  intros Hts Hinv m.
  destruct op as [args date writable|actor timestamp|actor approver timestamp]; simpl.
  - destruct (create_release_result args date writable file)
      as [[e ->]|(v & a & k & d & ->)]; simpl.
    + apply Hinv.
    + intros [= <-]. intros H. discriminate.
  - destruct file as [m0|]; simpl; [|discriminate]. intros [= <-] _. exact Hts.
  - destruct file as [m0|]; [|discriminate]. unfold recordProductionDeploy.
    destruct (is_set (staging_deployed_at (staging m0))) eqn:Hs.
    + intros [= <-] _. exact Hs.
    + intros [= <-]. by apply Hinv.
Qed.

(** C3.  A manifest written by create-release.sh has empty staging and
    production metadata.  [recordProductionDeploy] fails with
    StagingNotDoneError when staging.deployed_at is unset, and when it
    succeeds staging.deployed_at was set and is kept.  Along every
    history of creations and recorded deployments, production.deployed_at
    is set only if staging.deployed_at is. *)
Theorem staging_first_invariant :
  (forall args date writable file m,
      create_release args date writable file = (None, Some m) ->
      staging m = {| staging_deployed_at := ""; staging_deployed_by := "" |} /\
      production m = {| production_deployed_at := ""; production_deployed_by := "";
                        production_approved_by := "" |}) /\
  (forall actor approver timestamp m,
      is_set (staging_deployed_at (staging m)) = false ->
      recordProductionDeploy actor approver timestamp m = inl StagingNotDoneError) /\
  (forall actor approver timestamp m m',
      recordProductionDeploy actor approver timestamp m = inr m' ->
      is_set (staging_deployed_at (staging m)) = true /\
      staging m' = staging m /\ services m' = services m /\
      production_deployed_at (production m') = timestamp) /\
  (forall file ops,
      (forall m, file = Some m -> staging_first m) ->
      Forall (fun op => timestamped op = true) ops ->
      forall m, apply_history file ops = Some m -> staging_first m).
Proof.
  split; [|split; [|split]].
  - intros args date writable file m H.
    destruct (create_release_result args date writable file)
      as [[e He]|(v & a & k & d & He)]; rewrite He in H; [discriminate|].
    injection H as <-. done.
  - intros actor approver timestamp m H. unfold recordProductionDeploy. by rewrite H.
  - intros actor approver timestamp m m'. unfold recordProductionDeploy.
    destruct (is_set (staging_deployed_at (staging m))); [|discriminate].
    intros [= <-]. done.
  - intros file ops Hinv Hts. revert file Hinv.
    induction Hts as [|op ops Hop _ IH]; intros file Hinv m; simpl.
    + apply Hinv.
    + apply IH. by apply apply_operation_staging_first.
Qed.

(** C6 (amended).  With four non-empty arguments and a
    releases/manifest.json that can be opened for writing,
    create-release.sh replaces the file by the new document, whatever the
    file held before, a manifest of the same version included: the script
    never reads the file.  A run that stops, on a missing argument or on a
    file that cannot be opened, leaves the file as it was. *)
Theorem create_release_overwrites :
  (forall VERSION API_SHA WORKERS_SHA DB_SHA extra date file,
      VERSION <> "" -> API_SHA <> "" -> WORKERS_SHA <> "" -> DB_SHA <> "" ->
      create_release (VERSION :: API_SHA :: WORKERS_SHA :: DB_SHA :: extra) date true file =
        (None, Some (manifest_document VERSION API_SHA WORKERS_SHA DB_SHA date))) /\
  (forall args date writable file file',
      fst (create_release args date writable file) = fst (create_release args date writable file')) /\
  (forall args date file, exists e, create_release args date false file = (Some e, file)) /\
  (forall args date writable file e file',
      create_release args date writable file = (Some e, file') -> file' = file).
Proof.
  split; [|split; [|split]].
  - intros v a k d extra date file Hv Ha Hk Hd. unfold create_release, parameter. simpl.
    apply String.eqb_neq in Hv, Ha, Hk, Hd. by rewrite Hv, Ha, Hk, Hd.
  - intros args date writable file file'. unfold create_release.
    repeat match goal with
           | |- context [parameter ?a ?n ?m] => destruct (parameter a n m); [done|]
           end.
    by destruct writable.
  - intros args date file.
    destruct (create_release_result args date false file) as [[e He]|(v & a & k & d & He)];
      [eauto|].
    unfold create_release in He.
    repeat match type of He with
           | context [parameter ?a ?n ?m] => destruct (parameter a n m); [discriminate|]
           end.
    discriminate.
  - intros args date writable file e file' H.
    destruct (create_release_result args date writable file)
      as [[e' He]|(v & a & k & d & He)]; rewrite He in H; congruence.
Qed.
End ManifestFacts.

(** * The properties on concrete runs *)

Import Sample.

(** C1 at the catalog of the repository, on a database whose row for 001
    carries the checksum of an edited file. *)
Lemma drift_detected_witness :
  exists w',
    migrate (P := platform) local_context catalog drifted_world = (Exit 1, w') /\
    tracking_record "001" (db w') = Some (row_001 "sha256:edited").
Proof.
  apply (proj1 (proj2 (@drift_detected platform local_context unit_001
                         (row_001 "sha256:edited") "CREATE TABLE users"))).
  - vm_compute. auto.
  - reflexivity.
  - reflexivity.
  - repeat split; vm_compute; congruence.
Defined.



(** C4 on a script that fails after its first statement: the working
    schema has changed, the database has not. *)
Lemma apply_is_atomic_witness :
  let w := world true (Some []) in
  exists r w',
    applyMigration (P := platform) local_context unit_003 w = (r, w') /\
    r = Throw (ScriptError "BROKEN") /\
    fst (run_sql (Platform := platform) "BROKEN" (schema (db w))) <> schema (db w) /\
    db w' = db w.
Proof.
  intros w.
  destruct (@apply_is_atomic platform local_context unit_003 "BROKEN" [] w)
    as (r & w' & Heq & _ & [H|[H|H]]).
  - reflexivity.
  - reflexivity.
  - reflexivity.
  - reflexivity.
  - reflexivity.
  - reflexivity.
  - reflexivity.
  - exfalso. destruct H as (_ & H & _). vm_compute in H. discriminate.
  - exists r, w'. split; [exact Heq|]. split; [tauto|]. split; [|tauto].
    vm_compute. discriminate.
  - exfalso. destruct H as (e & _ & H & _). vm_compute in H. discriminate.
Defined.

(** C4 as first stated fails on a script that commits its first
    statement and then fails: the unit has no tracking row before or
    after, the transaction is rolled back, and the table that the script
    created stays. *)
Lemma apply_is_atomic_counterexample :
  let w := world true (Some []) in
  let r := applyMigration (P := platform) local_context unit_004 w in
  tracking_record "004" (db w) = None /\
  fst r = Throw (ScriptError "CREATE TABLE leaked; COMMIT; SELECT 1/0") /\
  trace (snd r) = [LogProcessing "004"; EvBegin;
                   EvScript "CREATE TABLE leaked; COMMIT; SELECT 1/0"; EvRollback] /\
  schema (db w) = [] /\
  schema (db (snd r)) = ["CREATE TABLE leaked"] /\
  schema_migrations (db (snd r)) = Some [] /\
  db (snd r) <> db w.
Proof. vm_compute. repeat split. discriminate. Qed.

(** The script succeeds, the INSERT fails on VARCHAR(50), and the schema
    change of the script is undone. *)
Example rollback_undoes_script :
  let w := world true (Some []) in
  let r := applyMigration (P := platform) local_context unit_long w in
  fst r = Throw (ValueTooLong "version") /\
  executed (trace (snd r)) = ["CREATE TABLE bots"] /\
  db (snd r) = db w.
Proof. vm_compute. repeat split. Qed.

(** C5 on a catalog of three units, the second of which fails: the first
    stays applied and the third is not attempted. *)
Lemma migrate_in_catalog_order_witness :
  let cat := catalog ++ [unit_003; unit_002] in
  let w := world true None in
  exists w',
    migrate (P := platform) local_context cat w = (Exit 1, w') /\
    exists pre u post e w1,
      cat = pre ++ u :: post /\
      migrate (P := platform) local_context pre w = (Ok tt, w1) /\
      (forall wu,
          pool wu = true -> server_up wu = true -> snapshot wu = None ->
          db wu = db w1 ->
          fst (applyMigration local_context u wu) = Throw e) /\
      attempted (trace w') = attempted (trace w) ++ List.map version (pre ++ [u]) /\
      failures (trace w') = failures (trace w) ++ [e] /\
      db w' = unwound u (db w1) /\
      schema_migrations (db w') = schema_migrations (db w1) /\
      (keeps_transaction (db w1) u -> db w' = db w1) /\
      Forall (recorded (db w')) pre.
Proof.
  intros cat w.
  destruct (@migrate_in_catalog_order platform local_context cat w eq_refl eq_refl)
    as (r & w' & Heq & H).
  assert (Hrun : fst (migrate (P := platform) local_context cat w) = Exit 1)
    by (vm_compute; reflexivity).
  rewrite Heq in Hrun. simpl in Hrun. subst r.
  exists w'. split; [exact Heq|]. exact (proj2 H).
Defined.

(** The same run, evaluated: 001 is applied and recorded, 003 fails and is
    rolled back, 002 is never attempted. *)
Example failing_unit_ends_the_run :
  let r := migrate (P := platform) local_context (catalog ++ [unit_003; unit_002])
                   (world true None) in
  fst r = Exit 1 /\
  attempted (trace (snd r)) = ["001"; "003"] /\
  applied (trace (snd r)) = ["001"] /\
  failures (trace (snd r)) = [ScriptError "BROKEN"] /\
  schema (db (snd r)) = ["CREATE TABLE users"] /\
  List.map r_version <$> schema_migrations (db (snd r)) = Some ["001"].
Proof. vm_compute. repeat split. Qed.

(** C7 as first stated fails when the tracking table holds a row for a
    version that is not in the catalog: 999 is listed as applied. *)
Lemma status_partition_counterexample :
  exists appliedMigrations pendingMigrations w',
    status (P := platform) catalog retired_world =
      (Ok (appliedMigrations, pendingMigrations), w') /\
    ~ (forall v, In v (List.map r_version appliedMigrations) \/
                 In v (List.map version pendingMigrations) <->
                 In v (List.map version catalog)).
Proof.
  do 3 eexists. split; [vm_compute; reflexivity|].
  intros H. destruct (proj1 (H "999")) as [E|[]]; [simpl; auto|discriminate E].
Qed.

(** C7 on the same database. *)
Lemma status_partition_witness :
  exists appliedMigrations pendingMigrations w',
    status (P := platform) catalog retired_world =
      (Ok (appliedMigrations, pendingMigrations), w') /\
    appliedMigrations ≡ₚ [row_999; row_001 "sha256:CREATE TABLE users"] /\
    (forall m, In m pendingMigrations <->
               In m catalog /\ ~ In (version m) (List.map r_version appliedMigrations)) /\
    (forall v, In v (List.map version pendingMigrations) ->
               ~ In v (List.map r_version appliedMigrations)) /\
    (forall v, In v (List.map version catalog) ->
               In v (List.map r_version appliedMigrations) \/
               In v (List.map version pendingMigrations)) /\
    ((forall v, In v (List.map r_version appliedMigrations) ->
                In v (List.map version catalog)) ->
     forall v, In v (List.map r_version appliedMigrations) \/
               In v (List.map version pendingMigrations) <->
               In v (List.map version catalog)).
Proof.
  apply (@status_partition platform catalog retired_world); reflexivity.
Defined.


(** White space around the keyword is ignored. *)
Example gate_accepts_padded_keyword :
  promptConfirmation guarded_context [code_units "  yes "] = (Some true, []).
Proof. vm_compute. reflexivity. Qed.

(** The comparison is case sensitive, and the second line is not read. *)
Example gate_is_case_sensitive :
  promptConfirmation guarded_context [code_units "YES"; code_units "yes"] =
    (Some false, [code_units "yes"]).
Proof. vm_compute. reflexivity. Qed.

(** C9 for the health-check query, on a database whose audit table rejects
    every INSERT. *)
Lemma audit_failures_never_propagate_witness :
  audit_blind (query (P := platform) "SELECT 1 as health_check" client_select_1) /\
  fst (query (P := platform) "SELECT 1 as health_check" client_select_1
             (world true None)) = Ok tt.
Proof.
  destruct (@audit_failures_never_propagate platform) as (_ & _ & Hq & _ & Hrun).
  split.
  - apply Hq. intros w1 w2 Hf. simpl. auto.
  - rewrite Hrun; [reflexivity| |reflexivity|reflexivity].
    intros w1 w2 Hf. simpl. auto.
Defined.

(** C10 at MIGRATION_ENV=prod. *)
Lemma buildContext_only_local_witness :
  detectEnvironment {[ "MIGRATION_ENV" := "prod" ]} = inr "prod" /\
  ENVIRONMENT_CONFIGS !! "prod" = None /\
  buildContext (Nd := node) {[ "MIGRATION_ENV" := "prod" ]} =
    inl (TypeErrorUndefined "description").
Proof.
  apply (proj2 (proj2 (proj2 (@buildContext_only_local node {[ "MIGRATION_ENV" := "prod" ]})))).
  - vm_compute. reflexivity.
  - right. reflexivity.
Defined.

(** MIGRATION_ENV=local gives the local context with the default port. *)
Example buildContext_local :
  exists context env,
    buildContext (Nd := node) {[ "MIGRATION_ENV" := "local" ]} = inr (context, env) /\
    environment context = "local" /\ requiresConfirmation (config context) = false /\
    port (dbConfig context) = Some 5432%Z.
Proof. do 2 eexists. split; [vm_compute; reflexivity|]. repeat split. Qed.

(** C3 on a manifest fresh from create-release.sh. *)
Lemma staging_first_invariant_witness :
  recordProductionDeploy "engineer" "lead" "2026-02-23T14:00:00Z"
    (manifest_document "0.2.0" "abc1234" "def5678" "ghi9012" "2026-02-23T12:00:00Z") =
  inl StagingNotDoneError.
Proof.
  apply (proj1 (proj2 staging_first_invariant)). reflexivity.
Defined.

(** C6 on a file that holds a manifest of the same version. *)
Lemma create_release_overwrites_witness :
  create_release ["0.2.0"; "1111111"; "2222222"; "3333333"] "2026-03-01T09:00:00Z"
                 true (Some released) =
    (None, Some (manifest_document "0.2.0" "1111111" "2222222" "3333333"
                                   "2026-03-01T09:00:00Z")).
Proof.
  apply (proj1 create_release_overwrites); discriminate.
Defined.

(** C6 as first stated fails: creating version 0.2.0 again succeeds,
    replaces the pinned SHAs and clears the staging metadata. *)
Lemma create_release_counterexample :
  manifest_version released = "0.2.0" /\
  exists m,
    create_release ["0.2.0"; "1111111"; "2222222"; "3333333"] "2026-03-01T09:00:00Z"
                   true (Some released) = (None, Some m) /\
    manifest_version m = "0.2.0" /\
    sha <$> (services released !! "tachyon-api") = Some "abc1234" /\
    sha <$> (services m !! "tachyon-api") = Some "1111111" /\
    is_set (staging_deployed_at (staging released)) = true /\
    is_set (staging_deployed_at (staging m)) = false.
Proof.
  split; [reflexivity|]. eexists. split; [reflexivity|]. vm_compute. repeat split.
Qed.

(** The catalog of the repository on an empty database: one unit applied,
    one row with its digest. *)
Example first_run_applies_once :
  let r := migrate (P := platform) local_context catalog (world true None) in
  fst r = Ok tt /\
  reported (trace (snd r)) = [1] /\
  schema_migrations (db (snd r)) =
    Some [ {| r_version := "001";
              r_description := "Initial APPI compliant schema with encrypted PII fields";
              r_applied_at := 1700000000;
              r_checksum := sha256_hex (Platform := platform) "CREATE TABLE users";
              r_environment := "local" |} ].
Proof. vm_compute. repeat split. Qed.

(** * Further properties of the connection layer, the migrator, the cache
    and the release script *)

Section LeaseFacts.
Context `{P : Platform}.

Lemma logAuditEvent_leased eventType details w :
  leased (snd (logAuditEvent eventType details w)) = leased w.
Proof.
  unfold logAuditEvent, pool_audit_table_exists, pool_insert_audit. unfold_monad.
  cbn beta.
  destruct (pool w); [|reflexivity].
  destruct (server_up w) eqn:Hs; [|reflexivity].
  destruct (audit_events w) eqn:Ha; cbn; rewrite ?Hs, ?Ha; reflexivity.
Qed.

Lemma getConnection_leased w :
  leased (snd (getConnection w)) =
  match fst (getConnection w) with Ok _ => S (leased w) | _ => leased w end.
Proof.
  unfold getConnection, pool_connect. unfold_monad. cbn beta.
  destruct (pool w); simpl; [|reflexivity].
  destruct (server_up w); simpl; [|reflexivity].
  pose proof (logAuditEvent_leased "data_access" "Connection acquired"
                (set_leased (S (leased w)) w)) as Hl.
  destruct (logAuditEvent_run "data_access" "Connection acquired"
              (set_leased (S (leased w)) w)) as (w' & Heq & _).
  rewrite Heq in *. simpl in *. exact Hl.
Qed.

Lemma query_leased {A} text (stmt : M A) w :
  (forall w0, leased (snd (stmt w0)) = leased w0) ->
  (forall w0 c, fst (stmt w0) <> Exit c) ->
  leased (snd (query text stmt w)) = leased w.
Proof.
  intros Hkeep Hexit. unfold query. unfold_monad.
  pose proof (getConnection_leased w) as Hg.
  destruct (getConnection w) as [[[]|e|c] w0]; simpl in Hg; simpl; [|done|done].
  pose proof (logAuditEvent_leased "data_access"
                ("Query: " +:+ substring_0_100 text +:+ "...") w0) as Hl.
  destruct (logAuditEvent_run "data_access"
              ("Query: " +:+ substring_0_100 text +:+ "...") w0) as (w1 & Heq & _).
  rewrite Heq in *. simpl in Hl.
  specialize (Hkeep w1). specialize (Hexit w1).
  unfold client_release, modify.
  destruct (stmt w1) as [[a|e|c] w2]; simpl in *.
  - rewrite Hkeep, Hl, Hg. reflexivity.
  - rewrite Hkeep, Hl, Hg. reflexivity.
  - exfalso. by apply (Hexit c).
Qed.

(** X1.  [query] gives back the client it checked out: whether the
    statement returns or throws, and whether or not a connection could be
    had, as many clients are leased after the call as before; and the call
    never ends the process. *)
Theorem query_releases_client {A} text (stmt : M A) w :
  (forall w0, leased (snd (stmt w0)) = leased w0) ->
  (forall w0 c, fst (stmt w0) <> Exit c) ->
  leased (snd (query text stmt w)) = leased w /\
  (forall c, fst (query text stmt w) <> Exit c).
Proof.
  intros Hkeep Hexit. split; [by apply query_leased|].
  intros c. destruct (query_run text stmt w) as (w1 & w' & Heq & _).
  rewrite Heq. simpl.
  destruct (pool w); [destruct (server_up w)|]; first [apply Hexit | done].
Qed.

(** X2.  [transaction] gives back its client as well, and when it is
    over no transaction is open on the connection: the callback has been
    committed or rolled back. *)
Theorem transaction_releases_client {A} (callback : M A) w :
  (forall w0, leased (snd (callback w0)) = leased w0) ->
  (forall w0 c, fst (callback w0) <> Exit c) ->
  snapshot w = None ->
  leased (snd (transaction callback w)) = leased w /\
  snapshot (snd (transaction callback w)) = None.
Proof.
  intros Hkeep Hexit Hn. unfold transaction. unfold_monad.
  pose proof (getConnection_leased w) as Hg.
  destruct (getConnection_run w) as (w0 & Hgeq & Hf0).
  rewrite Hgeq in *. simpl in Hg.
  apply frame_inv in Hf0 as (_ & _ & Hs0 & _).
  destruct (pool w); [destruct (server_up w)|]; simpl; try (split; congruence).
  unfold client_begin, client_commit, client_rollback, client_release, modify.
  cbn beta.
  match goal with |- context [logAuditEvent ?a ?b ?x] =>
    pose proof (logAuditEvent_leased a b x) as Hl1;
    destruct (logAuditEvent_run a b x) as (w1 & Heq1 & Hf1) end.
  rewrite Heq1 in *. simpl in Hl1.
  specialize (Hkeep w1). specialize (Hexit w1).
  destruct (callback w1) as [[a|e|c] w2]; simpl in *.
  - match goal with |- context [logAuditEvent ?a ?b ?x] =>
      pose proof (logAuditEvent_leased a b x) as Hl3;
      destruct (logAuditEvent_run a b x) as (w3 & Heq3 & Hf3) end.
    rewrite Heq3 in *. simpl in Hl3. apply frame_inv in Hf3 as (_ & _ & Hs3 & _).
    simpl. rewrite Hl3, Hs3. simpl.
    rewrite Hkeep, Hl1. rewrite Hn in Hs0. rewrite Hs0. simpl.
    rewrite Hg; split; reflexivity.
  - simpl. rewrite Hn in Hs0. rewrite Hs0 in *.
    destruct (snapshot w2) eqn:Hs2; simpl; rewrite ?Hs2, Hkeep, Hl1; simpl;
      rewrite Hg; split; reflexivity.
  - exfalso. by apply (Hexit c).
Qed.

(** X3.  [healthCheck] never throws.  It reports healthy exactly when the
    pool exists and the server answers, and it leaves the database, the
    trace and the number of leased clients as they were. *)
Theorem healthCheck_never_throws w :
  exists w',
    healthCheck w = (Ok (pool w && server_up w), w') /\
    frame w' = frame w /\ leased w' = leased w.
Proof.
  destruct (healthCheck_run w) as (w' & Heq & Hf). exists w'. split; [done|].
  split; [done|].
  assert (Hl : leased (snd (healthCheck w)) = leased w).
  { unfold healthCheck. unfold try_catch, bind.
    pose proof (query_leased "SELECT 1 as health_check" client_select_1 w) as Hq.
    destruct (query "SELECT 1 as health_check" client_select_1 w) as [[a|e|c] w1];
      simpl in *; apply Hq; intros; unfold client_select_1, ret; simpl; done. }
  by rewrite Heq in Hl.
Qed.

(** X4.  When the pool is closed or the server does not answer, [query]
    and [transaction] throw before their statement or callback runs:
    nothing is sent, nothing is leased.  [close] can be repeated, and after
    it no connection is to be had. *)
Theorem unavailable_pool_runs_nothing {A} (callback : M A) text w :
  pool w && server_up w = false ->
  let error := if pool w then ConnectionError else PoolNotInitialized in
  (exists w', transaction callback w = (Throw error, w') /\
              frame w' = frame w /\ leased w' = leased w) /\
  (exists w', query text callback w = (Throw error, w') /\
              frame w' = frame w /\ leased w' = leased w) /\
  (exists w', close w = (Ok tt, w') /\ pool w' = false /\
              close w' = (Ok tt, w') /\
              getConnection w' = (Throw PoolNotInitialized, w')).
Proof.
  intros Hd error. split; [|split].
  - destruct (transaction_down callback w Hd) as (w' & Heq & Hf). exists w'.
    split; [by destruct (pool w)|]. split; [done|].
    assert (Hl : leased (snd (transaction callback w)) = leased w).
    { unfold transaction. unfold_monad. pose proof (getConnection_leased w) as Hg.
      destruct (getConnection_run w) as (w0 & Hgeq & _). rewrite Hgeq in *.
      destruct (pool w); simpl in *; [rewrite Hd in *|]; done. }
    by rewrite Heq in Hl.
  - destruct (query_run text callback w) as (w1 & w' & Heq & _ & Hf).
    rewrite Hd in Hf. exists w'. split; [|split; [done|]].
    + rewrite Heq. destruct (pool w); simpl in *; [rewrite Hd|]; done.
    + assert (Hl : leased (snd (query text callback w)) = leased w).
      { unfold query. unfold_monad. pose proof (getConnection_leased w) as Hg.
        destruct (getConnection_run w) as (w0 & Hgeq & _). rewrite Hgeq in *.
        destruct (pool w); simpl in *; [rewrite Hd in *|]; done. }
      by rewrite Heq in Hl.
  - unfold close, getConnection. unfold_monad.
    destruct (pool w) eqn:Hp; simpl; eexists; (split; [reflexivity|]); simpl;
      rewrite ?Hp; done.
Qed.
End LeaseFacts.

Section MigratorExtras.
Context `{P : Platform}.
Variable context : MigrationContext.

(** X5.  [createMigrationsTable] can be repeated: the first call creates
    an empty tracking table if there is none and keeps the rows of one that
    exists, it never touches the schema, and a second call changes
    nothing. *)
Theorem createMigrationsTable_idempotent w :
  pool w = true -> server_up w = true ->
  let w1 := snd (createMigrationsTable w) in
  let w2 := snd (createMigrationsTable w1) in
  fst (createMigrationsTable w) = Ok tt /\
  schema (db w1) = schema (db w) /\
  schema_migrations (db w1) = Some (default [] (schema_migrations (db w))) /\
  fst (createMigrationsTable w1) = Ok tt /\
  frame w2 = frame w1.
Proof.
  intros Hp Hs w1 w2.
  destruct (createMigrationsTable_run w Hp Hs) as (w1' & Heq1 & Hf1).
  subst w2 w1. rewrite Heq1. simpl.
  apply frame_inv in Hf1 as Hi. destruct Hi as (Hu1 & Hd1 & Hs1 & Hp1 & Hn1 & Ht1).
  simpl in *.
  destruct (createMigrationsTable_run w1') as (w2' & Heq2 & Hf2); [congruence..|].
  rewrite Heq2. simpl. split; [done|]. rewrite Hd1. simpl.
  split; [done|]. split; [by destruct (schema_migrations (db w))|]. split; [done|].
  rewrite Hf2. unfold frame; simpl. rewrite Hd1. simpl.
  destruct (schema_migrations (db w)); simpl; rewrite <- Hd1; destruct (db w1');
    simpl in *; congruence.
Qed.

(** X6.  A unit whose file cannot be read is reported before the tracking
    table is consulted: [applyMigration] throws without sending anything,
    whatever the table holds for its version, and a run over a catalog that
    contains such a unit ends with exit code 1. *)
Theorem unreadable_unit_stops_the_run (m : MigrationFile) :
  readFileSync (path m) = None ->
  (forall w rows,
      pool w = true -> server_up w = true -> snapshot w = None ->
      schema_migrations (db w) = Some rows ->
      exists w',
        applyMigration context m w = (Throw (FileNotFound (path m)), w') /\
        db w' = db w /\ executed (trace w') = executed (trace w)) /\
  (forall cat w,
      In m cat -> pool w = true -> snapshot w = None ->
      exists w', migrate context cat w = (Exit 1, w')).
Proof.
  intros Hfile. split.
  - intros w rows Hp Hs Hn Ht.
    destruct (applyMigration_run context m w rows Hp Hs Hn Ht)
      as (r & w' & Heq & _ & _ & _ & _ & Hcases).
    rewrite Hfile in Hcases. destruct Hcases as (-> & Hd & Htr).
    exists w'. rewrite Htr, executed_app. simpl. rewrite app_nil_r. done.
  - intros cat w Hin Hp Hn.
    destruct (server_up w) eqn:Hs.
    2:{ destruct (migrate_unhealthy context cat w) as (w' & Heq & _);
          [by rewrite Hp, Hs|]. eauto. }
    destruct (migrate_start context w Hp Hs Hn) as (Hp0 & Hs0 & Hn0 & Ht0 & _ & _ & Hrows0 & _).
    destruct (migrate_healthy context cat w Hp Hs) as [_ Hrun].
    set (w0 := snd (createMigrationsTable (snd (healthCheck w)))) in *.
    destruct (migrate_loop_run context cat 0 w0 _ Hp0 Hs0 Hn0 Hrows0) as
      (r & wl & rows' & Hloop & _ & Hpl & _ & _ & _ & _ & _ & _ & _ & _ & Hr).
    specialize (Hrun r wl Hloop Hpl).
    destruct r as [n|e|c]; [| |done].
    + exfalso. destruct Hr as (_ & _ & Hall).
      rewrite Forall_forall in Hall. apply list_elem_of_In in Hin.
      destruct (Hall m Hin) as (content & row & Hf & _). congruence.
    + destruct Hrun as (w' & Heq & _). eauto.
Qed.

(** What a run of [migrate] can end with. *)
Lemma migrate_outcome cat w :
  pool w = true -> snapshot w = None ->
  exists r w', migrate context cat w = (r, w') /\
    (r = Exit 1 \/ (r = Ok tt /\ pool w' = false /\ snapshot w' = None /\
                    server_up w = true)).
Proof.
  intros Hp Hn.
  destruct (server_up w) eqn:Hs.
  2:{ destruct (migrate_unhealthy context cat w) as (w' & Heq & _);
        [by rewrite Hp, Hs|]. eauto. }
  destruct (migrate_start context w Hp Hs Hn) as (Hp0 & Hs0 & Hn0 & Ht0 & _ & _ & Hrows0 & _).
  destruct (migrate_healthy context cat w Hp Hs) as [_ Hrun].
  set (w0 := snd (createMigrationsTable (snd (healthCheck w)))) in *.
  destruct (migrate_loop_run context cat 0 w0 _ Hp0 Hs0 Hn0 Hrows0) as
    (r & wl & rows' & Hloop & _ & Hpl & Hsl & _ & _ & _ & _ & _ & _ & _ & Hr).
  specialize (Hrun r wl Hloop Hpl).
  destruct r as [n|e|c]; [| |done].
  - destruct Hrun as (w' & Heq & _ & Hs' & Hp' & _). exists (Ok tt), w'.
    split; [done|]. right. rewrite Hs'. done.
  - destruct Hrun as (w' & Heq & _). eauto.
Qed.

Lemma List_filter_sublist {A} (f : A -> bool) (l : list A) :
  List.filter f l `sublist_of` l.
Proof.
  induction l as [|x l IH]; simpl; [constructor|].
  destruct (f x); by constructor.
Qed.

Lemma status_outcome cat w :
  pool w = true ->
  exists r w',
    status cat w = (r, w') /\ trace w' = trace w ++
      (if server_up w then [] else [LogStatusFailed DatabaseUnhealthy]) /\
    schema (db w') = schema (db w) /\
    (forall rows, schema_migrations (db w) = Some rows -> db w' = db w) /\
    if server_up w then
      exists appliedMigrations pendingMigrations,
        r = Ok (appliedMigrations, pendingMigrations) /\
        pendingMigrations `sublist_of` cat /\
        pool w' = false
    else r = Exit 1.
Proof.
  intros Hp. destruct (server_up w) eqn:Hs.
  - unfold status, getMigrationFiles, close. unfold_monad. cbv zeta.
    destruct (healthCheck_run w) as (w1 & Hh & Hf). rewrite Hh, Hp, Hs. simpl.
    apply frame_inv in Hf as (Hu1 & Hd1 & Hs1 & Hp1 & Hn1 & Ht1).
    destruct (createMigrationsTable_run w1) as (w0 & Hc & Hf0); [congruence..|].
    rewrite Hc.
    apply frame_inv in Hf0 as (Hu0 & Hd0 & Hs0 & Hp0 & Hn0 & Ht0). simpl in *.
    destruct (query_blind_run
      "SELECT version, description, applied_at, environment FROM schema_migrations ORDER BY version"
      client_select_all_migrations w0 client_select_all_migrations_blind)
      as (w2 & Hq & Hf2); [congruence..|].
    rewrite Hq.
    apply frame_inv in Hf2 as (Hu2 & Hd2 & Hs2 & Hp2 & Hn2 & Ht2).
    assert (Hrows : schema_migrations (db w0) =
                    Some (default [] (schema_migrations (db w)))).
    { rewrite Hd0, Hd1. simpl. destruct (schema_migrations (db w)); reflexivity. }
    unfold client_select_all_migrations in *. rewrite Hrows in *. simpl in *.
    rewrite Hp2, Hp0, Hp1, Hp. simpl.
    do 2 eexists. split; [reflexivity|]. simpl.
    rewrite Hd2, Ht2, Ht0, Ht1, Hd0, Hd1, app_nil_r. simpl.
    split; [done|]. split; [done|]. split.
    { intros rows Hr. rewrite Hr. destruct (db w); simpl in *; congruence. }
    do 2 eexists. split; [reflexivity|]. split; [|done].
    apply List_filter_sublist.
  - unfold status. unfold_monad.
    destruct (healthCheck_run w) as (w1 & Hh & Hf). rewrite Hh, Hp, Hs. simpl.
    apply frame_inv in Hf as (Hu1 & Hd1 & Hs1 & Hp1 & Hn1 & Ht1).
    do 2 eexists. split; [reflexivity|]. simpl. rewrite Hd1, Ht1. done.
Qed.

(** X7.  [status] only reads: it leaves the schema and an existing
    tracking table as they are and sends no script.  On a server that
    answers, the pending units come in catalog order and the pool is closed
    afterwards; otherwise the process ends with exit code 1. *)
Theorem status_reads_only cat w :
  pool w = true ->
  exists r w',
    status cat w = (r, w') /\ trace w' = trace w ++
      (if server_up w then [] else [LogStatusFailed DatabaseUnhealthy]) /\
    schema (db w') = schema (db w) /\
    (forall rows, schema_migrations (db w) = Some rows -> db w' = db w) /\
    if server_up w then
      exists appliedMigrations pendingMigrations,
        r = Ok (appliedMigrations, pendingMigrations) /\
        pendingMigrations `sublist_of` cat /\
        pool w' = false
    else r = Exit 1.
Proof.
  intros Hp. destruct (status_outcome cat w Hp) as (r & w' & H). exists r, w'. exact H.
Qed.
End MigratorExtras.

Section CliFacts.
Context `{P : Platform} `{Nd : Node}.
Variable MIGRATIONS : list MigrationFile.
Variable port_toString : option Z -> string.
Import Cli PoolConfiguration.

Lemma client_statement_blind text : audit_blind (client_statement text).
Proof.
  blind_worlds. unfold client_statement; simpl. repeat case_match; auto.
Qed.

(** X8.  [initializeAPPIData] sends its two INSERT statements one after
    the other, outside any transaction, and closes the pool in every case.
    If the first fails the second is not sent; if the second fails the
    effect of the first stays.  The tracking table is never touched. *)
Theorem initializeAPPIData_is_not_atomic (context : MigrationContext) w :
  pool w = true -> server_up w = true -> snapshot w = None ->
  let q1 := insert_privacy_policy in
  let q2 := insert_appi_audit_event (environment context) in
  let r1 := run_sql q1 (schema (db w)) in
  let r2 := run_sql q2 (fst r1) in
  exists r w',
    initializeAPPIData context w = (r, w') /\
    pool w' = false /\
    schema_migrations (db w') = schema_migrations (db w) /\
    if snd r1 then
      executed (trace w') = executed (trace w) ++ [q1; q2] /\
      if snd r2 then r = Ok tt /\ schema (db w') = fst r2
      else r = Throw (ScriptError q2) /\ schema (db w') = fst r1
    else
      r = Throw (ScriptError q1) /\ schema (db w') = schema (db w) /\
      executed (trace w') = executed (trace w) ++ [q1].
Proof.
  intros Hp Hs Hn q1 q2 r1 r2.
  unfold initializeAPPIData, close. unfold_monad. fold q1 q2.
  destruct (query_blind_run q1 (client_statement q1) w (client_statement_blind q1) Hp Hs)
    as (w1 & Hq1 & Hf1).
  rewrite Hq1.
  apply frame_inv in Hf1 as (Hu1 & Hd1 & Hs1 & Hp1 & Hn1 & Ht1).
  unfold client_statement in Hu1, Hd1, Hs1, Hp1, Hn1, Ht1 |- * at 1.
  simpl in *. fold r1 in Hu1, Hd1, Hs1, Hp1, Hn1, Ht1 |- *.
  destruct r1 as [s1 ok1] eqn:Hr1. simpl in r2 |- *.
  destruct ok1; simpl in *.
  - destruct (query_blind_run q2 (client_statement q2) w1 (client_statement_blind q2))
      as (w2 & Hq2 & Hf2); [congruence..|].
    rewrite Hq2.
    apply frame_inv in Hf2 as (Hu2 & Hd2 & Hs2 & Hp2 & Hn2 & Ht2).
    unfold client_statement in Hu2, Hd2, Hs2, Hp2, Hn2, Ht2 |- * at 1.
    simpl in *. rewrite Hd1 in *. simpl in *. fold r2 in Hu2, Hd2, Hs2, Hp2, Hn2, Ht2 |- *.
    destruct r2 as [s2 ok2] eqn:Hr2.
    destruct ok2; simpl in *.
    + rewrite Hp2, Hp1, Hp. simpl. do 2 eexists. split; [reflexivity|]. simpl.
      rewrite Hd2, Ht2, Ht1. simpl.
      rewrite !executed_app. simpl. rewrite <- app_assoc, Hd1. done.
    + rewrite Hs1, Hn in Hd2, Ht2, Hp2. simpl in *.
      rewrite Hp2, Hp1, Hp. simpl. do 2 eexists. split; [reflexivity|]. simpl.
      rewrite Hd2, Ht2, ?Hd1, Ht1. simpl.
      rewrite !executed_app. simpl. rewrite <- app_assoc, ?Hd1. done.
  - rewrite Hn in *. simpl in *.
    rewrite Hp1, Hp. simpl. do 2 eexists. split; [reflexivity|]. simpl.
    rewrite Hd1, Ht1. simpl. rewrite !executed_app. simpl. done.
Qed.

Lemma initializeAPPIData_closed (context : MigrationContext) w :
  pool w = false ->
  exists w', initializeAPPIData context w = (Throw PoolNotInitialized, w') /\
             frame w' = frame w.
Proof.
  intros Hp. unfold initializeAPPIData, close. unfold_monad.
  destruct (query_run insert_privacy_policy (client_statement insert_privacy_policy) w)
    as (w1 & w' & Heq & _ & Hf).
  rewrite Heq, Hp in *. simpl in *.
  apply frame_inv in Hf as Hi. destruct Hi as (_ & _ & _ & Hp' & _).
  rewrite Hp', Hp. eauto.
Qed.

Lemma env_or_nonempty env var fallback :
  fallback <> "" -> env_or env var fallback <> "".
Proof.
  intros Hf. unfold env_or. destruct (env !! var) as [v|]; [|done].
  destruct (String.eqb_spec v ""); done.
Qed.

Lemma env_or_set env var value fallback :
  value <> "" -> env_or (<[var := value]> env) var fallback = value.
Proof.
  intros Hv. unfold env_or. rewrite lookup_insert_eq.
  apply String.eqb_neq in Hv. by rewrite Hv.
Qed.

(** What [buildContext] returns when it returns. *)
Lemma buildContext_inr env context env' :
  buildContext env = inr (context, env') ->
  env !! "MIGRATION_ENV" = Some "local" /\
  env' = loadEnvironmentFile ".env.local" env /\
  environment context = "local" /\
  requiresConfirmation (config context) = false /\
  dbConfig context = loadLocalConfig env'.
Proof.
  unfold buildContext, detectEnvironment, includes.
  destruct (env !! "MIGRATION_ENV") as [e|]; [|discriminate].
  destruct (String.eqb_spec e "") as [->|Hne]; [discriminate|]. simpl.
  destruct (String.eqb_spec e "local") as [->|Hl].
  - simpl. unfold ENVIRONMENT_CONFIGS. rewrite lookup_singleton_eq. simpl.
    intros [= <- <-]. done.
  - destruct (String.eqb_spec e "dev") as [->|Hd];
      [|destruct (String.eqb_spec e "prod") as [->|Hp]]; simpl;
      unfold ENVIRONMENT_CONFIGS; rewrite ?lookup_singleton_ne by done; discriminate.
Qed.

(** X9.  Every context that [buildContext] returns passes the
    confirmation gate without a line being read: the only environment with
    an entry in ENVIRONMENT_CONFIGS asks for no confirmation. *)
Theorem shipped_configuration_never_prompts env context env' stdin :
  buildContext env = inr (context, env') ->
  promptConfirmation context stdin = (Some true, stdin).
Proof.
  intros H. apply buildContext_inr in H as (_ & _ & _ & Hr & _).
  unfold promptConfirmation. rewrite Hr.
  destruct (isCI context || autoConfirm context); reflexivity.
Qed.

Lemma new_DatabaseMigrator_local env context env' :
  buildContext env = inr (context, env') ->
  exists config env'',
    new_DatabaseMigrator port_toString context env' = inr (config, env'') /\
    pool_host config = host (dbConfig context) /\
    pool_database config = database (dbConfig context) /\
    pool_user config = user (dbConfig context) /\
    pool_password config = password (dbConfig context) /\
    pool_password config <> "" /\
    pool_port config =
      parseInt (let text := port_toString (port (dbConfig context)) in
                if String.eqb text "" then "5432" else text) /\
    pool_ssl config = if env_is env' "NODE_ENV" "production" then Some false else None.
Proof.
  intros H. apply buildContext_inr in H as (_ & _ & _ & _ & Hdb).
  unfold new_DatabaseMigrator, new_PostgreSQLManager. rewrite Hdb. simpl.
  set (h := env_or env' "POSTGRES_HOST" "localhost").
  set (d := env_or env' "POSTGRES_DB" "tacyhon_dev").
  set (u := env_or env' "POSTGRES_USER" "tachyon_dev").
  set (pw := env_or env' "POSTGRES_PASSWORD" "dev_password").
  assert (Hh : h <> "") by (by apply env_or_nonempty).
  assert (Hd : d <> "") by (by apply env_or_nonempty).
  assert (Hu : u <> "") by (by apply env_or_nonempty).
  assert (Hpw : pw <> "") by (by apply env_or_nonempty).
  set (env'' := <["POSTGRES_SSL_REJECT_UNAUTHORIZED" := "false"]> _).
  assert (Eh : env_or env'' "POSTGRES_HOST" "localhost" = h).
  { unfold env_or, env''. rewrite !lookup_insert_ne by done. rewrite lookup_insert_eq.
    apply String.eqb_neq in Hh. by rewrite Hh. }
  assert (Ed : env_or env'' "POSTGRES_DB" "tachyon_db" = d).
  { unfold env_or, env''. rewrite !lookup_insert_ne by done. rewrite lookup_insert_eq.
    apply String.eqb_neq in Hd. by rewrite Hd. }
  assert (Eu : env_or env'' "POSTGRES_USER" "tachyon_admin" = u).
  { unfold env_or, env''. rewrite !lookup_insert_ne by done. rewrite lookup_insert_eq.
    apply String.eqb_neq in Hu. by rewrite Hu. }
  assert (Ep : env_or env'' "POSTGRES_PASSWORD" "" = pw).
  { unfold env_or, env''. rewrite !lookup_insert_ne by done. rewrite lookup_insert_eq.
    apply String.eqb_neq in Hpw. by rewrite Hpw. }
  assert (Eport : env_or env'' "POSTGRES_PORT" "5432" =
                  let text := port_toString (parseInt (env_or env' "POSTGRES_PORT" "5432")) in
                  if String.eqb text "" then "5432" else text).
  { unfold env_or, env''. rewrite !lookup_insert_ne by done.
    by rewrite !lookup_insert_eq. }
  assert (Essl : env_is env'' "POSTGRES_SSL" "true" = false).
  { unfold env_is, env''. rewrite !lookup_insert_ne by done. by rewrite lookup_insert_eq. }
  assert (Enode : env_is env'' "NODE_ENV" "production" = env_is env' "NODE_ENV" "production").
  { unfold env_is, env''. by rewrite !lookup_insert_ne by done. }
  assert (Erej : env'' !! "POSTGRES_SSL_REJECT_UNAUTHORIZED" = Some "false").
  { unfold env''. by rewrite lookup_insert_eq. }
  rewrite Eh, Ed, Eu, Ep, Eport, Essl, Enode, Erej.
  apply String.eqb_neq in Hpw as Hpw'. rewrite Hpw'.
  do 2 eexists. split; [reflexivity|]. simpl.
  do 5 (split; [done|]). split; [done|].
  destruct (env_is env' "NODE_ENV" "production"); reflexivity.
Qed.

(** X10.  The constructor of DatabaseMigrator hands the connection
    parameters of a context of [buildContext] to the manager unchanged,
    through process.env: host, database, user and password arrive as they
    are, the password is never empty, so the constructor of the manager
    does not throw, and a certificate is never verified. *)
Theorem migrator_pool_configuration env context env' :
  buildContext env = inr (context, env') ->
  exists config env'',
    new_DatabaseMigrator port_toString context env' = inr (config, env'') /\
    pool_host config = host (dbConfig context) /\
    pool_database config = database (dbConfig context) /\
    pool_user config = user (dbConfig context) /\
    pool_password config = password (dbConfig context) /\
    pool_password config <> "" /\
    pool_port config =
      parseInt (let text := port_toString (port (dbConfig context)) in
                if String.eqb text "" then "5432" else text) /\
    pool_ssl config = if env_is env' "NODE_ENV" "production" then Some false else None.
Proof.
  intros H. destruct (new_DatabaseMigrator_local env context env' H)
    as (config & env'' & Hc). exists config, env''. exact Hc.
Qed.

(** X11.  The command migrate never ends with exit code 0.  [migrate]
    closes the pool when it succeeds, so the call of [initializeAPPIData]
    that follows it throws, and main exits with code 1. *)
Theorem main_migrate_never_exits_zero args env stdin w r w' :
  snapshot w = None ->
  command_of args = "migrate" ->
  main MIGRATIONS port_toString args env stdin w = Some (r, w') ->
  r = Exit 1.
Proof.
  intros Hn Hc. unfold main. rewrite Hc. simpl.
  destruct (buildContext env) as [e|[context env']] eqn:Hb; [by intros [= <- _]|].
  rewrite orb_true_r.
  assert (Hg : promptConfirmation context stdin = (Some true, stdin)).
  { destruct (buildContext_inr _ _ _ Hb) as (_ & _ & _ & Hr & _).
    unfold promptConfirmation. rewrite Hr.
    by destruct (isCI context || autoConfirm context). }
  rewrite Hg. simpl.
  destruct (new_DatabaseMigrator port_toString context env') as [e|pc];
    [by intros [= <- _]|].
  unfold_monad.
  destruct (migrate_outcome context MIGRATIONS (constructor w)) as
    (rm & wm & Hm & Hcases); [reflexivity|exact Hn|].
  rewrite Hm. destruct Hcases as [->|(-> & Hpm & _)]; [by intros [= <- _]|].
  destruct (initializeAPPIData_closed context wm Hpm) as (wa & Ha & _).
  rewrite Ha. by intros [= <- _].
Qed.

Lemma main_status_outcome args env stdin w :
  command_of args = "status" ->
  env !! "MIGRATION_ENV" = Some "local" ->
  exists w',
    main MIGRATIONS port_toString args env stdin w =
      Some (Exit (if server_up w then 0 else 1), w') /\
    schema (db w') = schema (db w) /\
    (forall rows, schema_migrations (db w) = Some rows -> db w' = db w) /\
    executed (trace w') = executed (trace w).
Proof.
  intros Hc Henv. unfold main. rewrite Hc. simpl.
  destruct (buildContext env) as [e|[context env']] eqn:Hb.
  { exfalso. revert Hb. unfold buildContext, detectEnvironment. rewrite Henv. simpl.
    unfold ENVIRONMENT_CONFIGS. rewrite lookup_singleton_eq. discriminate. }
  destruct (buildContext_inr _ _ _ Hb) as (_ & _ & _ & Hr & _). rewrite Hr. simpl.
  destruct (new_DatabaseMigrator_local _ _ _ Hb) as (pc & env'' & -> & _).
  unfold_monad.
  destruct (status_outcome MIGRATIONS (constructor w)) as
    (rs & ws & Hs & Ht & Hsch & Hrows & Hcases); [reflexivity|].
  rewrite Hs. simpl in *.
  destruct (server_up w).
  - destruct Hcases as (a & p & -> & _). simpl. eexists. split; [reflexivity|].
    rewrite Ht, app_nil_r. done.
  - rewrite Hcases. eexists. split; [reflexivity|].
    rewrite Ht, executed_app, app_nil_r. done.
Qed.

(** X12.  Run as a program with MIGRATION_ENV=local, the command status
    ends with exit code 0 exactly when POSTGRES_PASSWORD is set and not
    empty in process.env once the .env file is loaded, and the server
    answers; otherwise it ends with exit code 1.  Without the password the
    process ends while the modules are loaded and nothing is touched.  In
    no case is a script sent, and the schema and an existing tracking table
    stay as they are. *)
Theorem main_status_exit_code dotenv args env stdin w :
  let env' := match dotenv with
              | Some vars => env ∪ vars
              | None => env
              end in
  let password_set := negb (String.eqb (env_or env' "POSTGRES_PASSWORD" "") "") in
  command_of args = "status" ->
  env' !! "MIGRATION_ENV" = Some "local" ->
  exists w',
    migrate_ts MIGRATIONS port_toString dotenv args env stdin w =
      Some (Exit (if password_set && server_up w then 0 else 1), w') /\
    (password_set = false -> w' = w) /\
    schema (db w') = schema (db w) /\
    (forall rows, schema_migrations (db w) = Some rows -> db w' = db w) /\
    executed (trace w') = executed (trace w).
Proof.
  intros env' password_set Hc Henv. unfold migrate_ts. fold env'.
  unfold new_PostgreSQLManager. cbn [pool_password]. subst password_set.
  destruct (String.eqb (env_or env' "POSTGRES_PASSWORD" "") "").
  - exists w. simpl. repeat split; done.
  - destruct (main_status_outcome args env' stdin w Hc Henv) as (w' & -> & H).
    exists w'. simpl. split; [done|]. split; [done|]. exact H.
Qed.

(** X13.  For any value of MIGRATION_ENV other than local, main ends with
    exit code 1 before a pool exists, whatever the command.  For local and a
    command other than migrate, status and init-appi it creates the manager
    and ends with exit code 1 without a query. *)
Theorem main_refuses_without_touching_the_database args env stdin w :
  (env !! "MIGRATION_ENV" <> Some "local" ->
   main MIGRATIONS port_toString args env stdin w = Some (Exit 1, w)) /\
  (env !! "MIGRATION_ENV" = Some "local" ->
   command_of args <> "migrate" -> command_of args <> "status" ->
   command_of args <> "init-appi" ->
   main MIGRATIONS port_toString args env stdin w = Some (Exit 1, constructor w)).
Proof.
  split.
  - intros Henv. unfold main.
    destruct (buildContext env) as [e|[context env']] eqn:Hb; [reflexivity|].
    apply buildContext_inr in Hb as (He & _). done.
  - intros Henv Hm Hs Hi. unfold main.
    destruct (buildContext env) as [e|[context env']] eqn:Hb.
    { exfalso. revert Hb. unfold buildContext, detectEnvironment. rewrite Henv. simpl.
      unfold ENVIRONMENT_CONFIGS. rewrite lookup_singleton_eq. discriminate. }
    destruct (buildContext_inr _ _ _ Hb) as (_ & _ & _ & Hr & _). rewrite Hr.
    apply String.eqb_neq in Hm, Hs, Hi. rewrite Hm, Hs, Hi. simpl.
    destruct (new_DatabaseMigrator_local _ _ _ Hb) as (pc & env'' & -> & _).
    reflexivity.
Qed.
End CliFacts.

Section RedisFacts.
Import RedisManager.
Context `{J : Json}.

Lemma session_key_not_cache_key id key : "session:" +:+ id <> "cache:" +:+ key.
Proof. simpl. discriminate. Qed.

Lemma session_key_inj id id' : "session:" +:+ id = "session:" +:+ id' -> id = id'.
Proof. simpl. intros H. by simplify_eq. Qed.

Lemma cache_key_inj key key' : "cache:" +:+ key = "cache:" +:+ key' -> key = key'.
Proof. simpl. intros H. by simplify_eq. Qed.

(** What [set] does to the value of a key, read at a later time. *)
Lemma set_live key value ttlSeconds r :
  client r = true -> reachable r = true ->
  let ttl := default 0%Z ttlSeconds in
  if (ttl <? 0)%Z then set key value ttlSeconds r = (inl InvalidExpireTime, r)
  else
    fst (set key value ttlSeconds r) = inr tt /\
    forall seconds key',
      live (elapse seconds (snd (set key value ttlSeconds r))) key' =
      if decide (key' = key) then
        if (ttl =? 0)%Z then Some value
        else if (seconds <? ttl)%Z then Some value else None
      else live (elapse seconds r) key'.
Proof.
  intros Hc Hr ttl. subst ttl. unfold set.
  destruct ttlSeconds as [ttl|]; simpl;
    [destruct (Z.eqb_spec ttl 0) as [->|Hz]|];
    unfold command, SET, SETEX; rewrite Hc, Hr; simpl.
  - idtac.
    split; [done|]. intros seconds key'. unfold live; simpl.
    case_decide as Hk; [subst; by rewrite lookup_insert_eq|].
    by rewrite lookup_insert_ne.
  - destruct (Z.ltb_spec ttl 0) as [Hneg|Hpos].
    + replace (ttl <=? 0)%Z with true by (symmetry; apply Z.leb_le; lia). done.
    + replace (ttl <=? 0)%Z with false by (symmetry; apply Z.leb_gt; lia). simpl.
      split; [done|]. intros seconds key'. unfold live; simpl.
      case_decide as Hk; [subst; rewrite lookup_insert_eq|by rewrite lookup_insert_ne].
      destruct (Z.ltb_spec (time r + seconds) (time r + ttl)),
               (Z.ltb_spec seconds ttl); (done || lia).
  - split; [done|]. intros seconds key'. unfold live; simpl.
    case_decide as Hk; [subst; by rewrite lookup_insert_eq|].
    by rewrite lookup_insert_ne.
Qed.

Lemma get_live key r :
  client r = true -> reachable r = true -> get key r = (inr (live r key), r).
Proof. intros Hc Hr. unfold get, command, GET. by rewrite Hc, Hr. Qed.

Lemma set_client key value ttlSeconds r :
  client (snd (set key value ttlSeconds r)) = client r /\
  reachable (snd (set key value ttlSeconds r)) = reachable r /\
  time (snd (set key value ttlSeconds r)) = time r /\
  forall key', key' <> key ->
    keys (snd (set key value ttlSeconds r)) !! key' = keys r !! key'.
Proof.
  unfold set.
  destruct ttlSeconds as [ttl|]; [destruct (ttl =? 0)%Z|];
    unfold command, SET, SETEX;
    destruct (client r) eqn:Hc; simpl; try done;
    destruct (reachable r) eqn:Hr; simpl; try done;
    repeat case_match; simpl; repeat split; try done;
    intros key' Hk; by rewrite lookup_insert_ne.
Qed.

Lemma delete_client key r :
  client (snd (delete key r)) = client r /\
  reachable (snd (delete key r)) = reachable r /\
  time (snd (delete key r)) = time r /\
  forall key', key' <> key ->
    keys (snd (delete key r)) !! key' = keys r !! key'.
Proof.
  unfold delete, command, DEL.
  destruct (client r) eqn:Hc; simpl; try done;
    destruct (reachable r) eqn:Hr; simpl; try done;
    repeat split; try done;
    intros key' Hk; by rewrite lookup_delete_ne.
Qed.

(** X14.  A session that is stored with a positive time to live (one day
    when none is given) is read back unchanged before that time has passed
    and is gone from then on, provided its JSON text parses back to it. *)
Theorem session_round_trip sessionId (sessionData : JsonValue) ttlSeconds r seconds :
  client r = true -> reachable r = true ->
  JSON_parse (JSON_stringify sessionData) = Some sessionData ->
  JSON_stringify sessionData <> "" ->
  (0 < default 86400 ttlSeconds)%Z ->
  let r' := snd (setSession sessionId sessionData ttlSeconds r) in
  fst (setSession sessionId sessionData ttlSeconds r) = inr tt /\
  fst (getSession sessionId (elapse seconds r')) =
    inr (if (seconds <? default 86400 ttlSeconds)%Z then Some sessionData else None).
Proof.
  intros Hc Hr Hparse Hne Hpos r'. subst r'. unfold setSession, getSession.
  pose proof (set_live ("session:" +:+ sessionId) (JSON_stringify sessionData)
                (Some (default 86400%Z ttlSeconds)) r Hc Hr) as Hset.
  cbv zeta in Hset. cbn [from_option id] in Hset.
  replace (default 86400 ttlSeconds <? 0)%Z with false in Hset
    by (symmetry; apply Z.ltb_ge; lia).
  replace (default 86400 ttlSeconds =? 0)%Z with false in Hset
    by (symmetry; apply Z.eqb_neq; lia).
  destruct Hset as [Hok Hlive]. split; [exact Hok|].
  set (r1 := snd (set _ _ _ r)) in *.
  assert (Hc1 : client (elapse seconds r1) = true /\ reachable (elapse seconds r1) = true).
  { subst r1.
    destruct (set_client ("session:" +:+ sessionId) (JSON_stringify sessionData)
                (Some (default 86400%Z ttlSeconds)) r) as (Hc' & Hr' & _).
    unfold elapse. cbn [client reachable]. rewrite Hc', Hr'. done. }
  rewrite get_live by tauto. simpl.
  rewrite Hlive. rewrite decide_True by done.
  destruct (seconds <? default 86400 ttlSeconds)%Z; simpl; [|done].
  apply String.eqb_neq in Hne. by rewrite Hne, Hparse.
Qed.

(** X15.  A session stored with the time to live 0 never expires: the
    value 0 is falsy and the key is written with SET.  A negative time to
    live is refused by the server and nothing is stored. *)
Theorem session_with_ttl_zero_never_expires sessionId (sessionData : JsonValue) r :
  client r = true -> reachable r = true ->
  JSON_parse (JSON_stringify sessionData) = Some sessionData ->
  JSON_stringify sessionData <> "" ->
  (forall seconds,
      fst (getSession sessionId
             (elapse seconds (snd (setSession sessionId sessionData (Some 0%Z) r)))) =
      inr (Some sessionData)) /\
  (forall ttl, (ttl < 0)%Z ->
      setSession sessionId sessionData (Some ttl) r = (inl InvalidExpireTime, r)).
Proof.
  intros Hc Hr Hparse Hne. split.
  - intros seconds. unfold setSession, getSession.
    pose proof (set_live ("session:" +:+ sessionId) (JSON_stringify sessionData)
                  (Some 0%Z) r Hc Hr) as Hset.
    cbv zeta in Hset. cbn [from_option id] in Hset.
    change (0 <? 0)%Z with false in Hset. change (0 =? 0)%Z with true in Hset.
    destruct Hset as [Hok Hlive].
    set (r1 := snd (set _ _ _ r)) in *.
    assert (Hc1 : client (elapse seconds r1) = true /\
                  reachable (elapse seconds r1) = true).
    { subst r1.
      destruct (set_client ("session:" +:+ sessionId) (JSON_stringify sessionData)
                  (Some 0%Z) r) as (Hc' & Hr' & _).
      unfold elapse. cbn [client reachable]. rewrite Hc', Hr'. done. }
    rewrite get_live by tauto. simpl. rewrite Hlive, decide_True by done. simpl.
    apply String.eqb_neq in Hne. by rewrite Hne, Hparse.
  - intros ttl Hneg. unfold setSession.
    pose proof (set_live ("session:" +:+ sessionId) (JSON_stringify sessionData)
                  (Some ttl) r Hc Hr) as Hset.
    cbv zeta in Hset. cbn [from_option id] in Hset. replace (ttl <? 0)%Z with true in Hset by (symmetry; apply Z.ltb_lt; lia).
    exact Hset.
Qed.

(** a read depends on the client, the server, the clock and the one key *)
Lemma get_depends key r1 r2 :
  client r1 = client r2 -> reachable r1 = reachable r2 -> time r1 = time r2 ->
  keys r1 !! key = keys r2 !! key ->
  fst (get key r1) = fst (get key r2).
Proof.
  intros Hc Hr Ht Hk. unfold get, command, GET, live. rewrite Hc, Hr, Ht, Hk. 
  repeat case_match; reflexivity.
Qed.

Lemma getSession_depends id r1 r2 :
  fst (get ("session:" +:+ id) r1) = fst (get ("session:" +:+ id) r2) ->
  fst (getSession id r1) = fst (getSession id r2).
Proof.
  unfold getSession. intros H.
  destruct (get ("session:" +:+ id) r1) as [[e1|d1] r1'],
           (get ("session:" +:+ id) r2) as [[e2|d2] r2']; simpl in *; congruence.
Qed.

Lemma getCachedResponse_depends key r1 r2 :
  fst (get ("cache:" +:+ key) r1) = fst (get ("cache:" +:+ key) r2) ->
  fst (getCachedResponse key r1) = fst (getCachedResponse key r2).
Proof.
  unfold getCachedResponse. intros H.
  destruct (get ("cache:" +:+ key) r1) as [[e1|d1] r1'],
           (get ("cache:" +:+ key) r2) as [[e2|d2] r2']; simpl in *; congruence.
Qed.

(** X16.  Sessions and cached responses never collide: caching a response
    does not change what any session reads, and storing or deleting a
    session does not change what any cache key reads. *)
Theorem sessions_and_cache_do_not_collide sessionId cacheKey (data : JsonValue) ttl r :
  fst (getSession sessionId (snd (cacheResponse cacheKey data ttl r))) =
    fst (getSession sessionId r) /\
  fst (getCachedResponse cacheKey (snd (setSession sessionId data ttl r))) =
    fst (getCachedResponse cacheKey r) /\
  fst (getCachedResponse cacheKey (snd (deleteSession sessionId r))) =
    fst (getCachedResponse cacheKey r).
Proof.
  split; [|split].
  - apply getSession_depends. unfold cacheResponse.
    destruct (set_client ("cache:" +:+ cacheKey) (JSON_stringify data)
                (Some (default 300%Z ttl)) r) as (Hc & Hr & Ht & Hk).
    apply get_depends; [done|done|done|]. apply Hk, session_key_not_cache_key.
  - apply getCachedResponse_depends. unfold setSession.
    destruct (set_client ("session:" +:+ sessionId) (JSON_stringify data)
                (Some (default 86400%Z ttl)) r) as (Hc & Hr & Ht & Hk).
    apply get_depends; [done|done|done|]. apply Hk. intros H. symmetry in H.
    by apply session_key_not_cache_key in H.
  - apply getCachedResponse_depends.
    destruct (delete_client ("session:" +:+ sessionId) r) as (Hc & Hr & Ht & Hk).
    assert (Hsnd : snd (deleteSession sessionId r) = snd (delete ("session:" +:+ sessionId) r)).
    { unfold deleteSession. by destruct (delete _ r) as [[?|?] ?]. }
    rewrite Hsnd. apply get_depends; [done|done|done|]. apply Hk. intros H.
    symmetry in H. by apply session_key_not_cache_key in H.
Qed.

(** X17.  [deleteSession] removes the session it names, for good, and
    leaves every other session as it is. *)
Theorem deleteSession_removes_one_session sessionId r :
  client r = true -> reachable r = true ->
  let r' := snd (deleteSession sessionId r) in
  fst (deleteSession sessionId r) = inr tt /\
  (forall seconds, fst (getSession sessionId (elapse seconds r')) = inr None) /\
  (forall other seconds, other <> sessionId ->
     fst (getSession other (elapse seconds r')) =
     fst (getSession other (elapse seconds r))).
Proof.
  intros Hc Hr r'. subst r'.
  assert (Hsnd : snd (deleteSession sessionId r) = snd (delete ("session:" +:+ sessionId) r)).
  { unfold deleteSession. by destruct (delete _ r) as [[?|?] ?]. }
  rewrite Hsnd. split; [|split].
  - unfold deleteSession, delete, command, DEL. by rewrite Hc, Hr.
  - intros seconds. unfold getSession.
    rewrite get_live.
    + unfold delete, command, DEL, live. rewrite Hc, Hr. simpl.
      by rewrite lookup_delete_eq.
    + unfold delete, command, DEL. by rewrite Hc, Hr.
    + unfold delete, command, DEL. by rewrite Hc, Hr.
  - intros other seconds Hne. apply getSession_depends.
    destruct (delete_client ("session:" +:+ sessionId) r) as (Hc' & Hr' & Ht' & Hk).
    apply get_depends; simpl; [done|done|congruence|].
    apply Hk. intros H. by apply session_key_inj in H.
Qed.

(** X18.  After [close] the manager has no client: get, set, delete and
    exists throw without reaching the server, the health check reports
    unhealthy without throwing, and a second close does nothing.  The keys
    of the server are not affected. *)
Theorem closed_redis_client_refuses key value ttl r :
  reachable r = true ->
  let r' := snd (RedisManager.close r) in
  fst (RedisManager.close r) = inr tt /\
  get key r' = (inl ClientNotInitialized, r') /\
  set key value ttl r' = (inl ClientNotInitialized, r') /\
  delete key r' = (inl ClientNotInitialized, r') /\
  exists_ key r' = (inl ClientNotInitialized, r') /\
  RedisManager.healthCheck r' = (false, r') /\
  RedisManager.close r' = (inr tt, r') /\
  keys r' = keys r.
Proof.
  intros Hr r'. subst r'. destruct r as [c re k t]. simpl in Hr. subst re.
  unfold RedisManager.close, get, set, delete, exists_, command,
    RedisManager.healthCheck.
  destruct c; simpl; (destruct ttl as [x|]; [destruct (x =? 0)%Z|]);
    repeat split; reflexivity.
Qed.
End RedisFacts.

Section ConnectionsFacts.
Context `{P : Platform}.
Import Connections.

(** both servers answer: the pool and the client exist and are reachable *)
Lemma testConnections_run s :
  let s' := snd (testConnections s) in
  fst (testConnections s) =
    (pool (postgresql s) && server_up (postgresql s),
     RedisManager.client (redis s) && RedisManager.reachable (redis s)) /\
  frame (postgresql s') = frame (postgresql s) /\
  redis s' = redis s /\ timeouts s' = timeouts s.
Proof.
  unfold testConnections.
  destruct (healthCheck_run (postgresql s)) as (w' & -> & Hf).
  unfold RedisManager.healthCheck.
  destruct (RedisManager.client (redis s)), (RedisManager.reachable (redis s)); simpl; done.
Qed.

Lemma attempts_unhealthy remaining : forall attempt retries s,
  (pool (postgresql s) && server_up (postgresql s)) &&
  (RedisManager.client (redis s) && RedisManager.reachable (redis s)) = false ->
  (attempt + Z.of_nat remaining = retries)%Z ->
  let s' := snd (attempts (S remaining) attempt retries s) in
  fst (attempts (S remaining) attempt retries s) = inl (ConnectionsNotEstablished retries) /\
  timeouts s' = timeouts s ++
    List.map (fun a => (2 ^ a * 1000)%Z) (seqZ attempt (Z.of_nat remaining)) /\
  frame (postgresql s') = frame (postgresql s) /\ redis s' = redis s.
Proof.
  induction remaining as [|remaining IH]; intros attempt retries s Hbad Hsum.
  - cbn [attempts].
    destruct (testConnections_run s) as (Ht & Hf & Hr & Hto).
    destruct (testConnections s) as [[hp hr] s1]. simpl in *.
    injection Ht as -> ->. rewrite Hbad.
    replace (attempt =? retries)%Z with true by (symmetry; apply Z.eqb_eq; lia).
    simpl. rewrite app_nil_r. done.
  - remember (S remaining) as k. cbn [attempts].
    destruct (testConnections_run s) as (Ht & Hf & Hr & Hto).
    destruct (testConnections s) as [[hp hr] s1]. simpl in Ht, Hf, Hr, Hto.
    injection Ht as -> ->. rewrite Hbad.
    replace (attempt =? retries)%Z with false by (symmetry; apply Z.eqb_neq; lia).
    set (s2 := {| postgresql := postgresql s1; redis := redis s1;
                  timeouts := timeouts s1 ++ [(2 ^ attempt * 1000)%Z] |}).
    subst k.
    destruct (IH (attempt + 1)%Z retries s2) as (Hres & Htos & Hfs & Hrs).
    { subst s2. simpl. apply frame_inv in Hf as (Hu & _ & _ & Hp & _).
      rewrite Hu, Hp, Hr. exact Hbad. }
    { lia. }
    split; [exact Hres|]. split; [|split].
    + rewrite Htos. subst s2. simpl. rewrite Hto, <- app_assoc. f_equal.
      rewrite (seqZ_cons attempt (Z.of_nat (S remaining))) by lia.
      replace (Z.pred (Z.of_nat (S remaining))) with (Z.of_nat remaining) by lia.
      replace (Z.succ attempt) with (attempt + 1)%Z by lia. done.
    + rewrite Hfs. exact Hf.
    + rewrite Hrs. exact Hr.
Qed.

(** X19.  [initializeConnections] with no attempt to make (retries 0 or
    negative) returns at once without a health check.  Otherwise it returns
    after the first check when both servers are healthy, and when they are
    not it checks [retries] times, waits 2^attempt seconds after each
    check but the last, and throws. *)
Theorem initializeConnections_retries retries s :
  let healthy := (pool (postgresql s) && server_up (postgresql s)) &&
                 (RedisManager.client (redis s) && RedisManager.reachable (redis s)) in
  let n := default 3%Z retries in
  let result := initializeConnections retries s in
  ((n <= 0)%Z -> result = (inr tt, s)) /\
  ((0 < n)%Z -> healthy = true ->
   fst result = inr tt /\ timeouts (snd result) = timeouts s) /\
  ((0 < n)%Z -> healthy = false ->
   fst result = inl (ConnectionsNotEstablished n) /\
   timeouts (snd result) =
     timeouts s ++ List.map (fun a => (2 ^ a * 1000)%Z) (seqZ 1 (n - 1))).
Proof.
  intros healthy n result. subst result. unfold initializeConnections. fold n.
  split; [|split].
  - intros Hn. replace (Z.to_nat n) with O by lia. reflexivity.
  - intros Hn Hh. destruct (Z.to_nat n) as [|k] eqn:Hk; [lia|].
    cbn [attempts].
    destruct (testConnections_run s) as (Ht & Hf & Hr & Hto).
    destruct (testConnections s) as [[hp hr] s1]. simpl in *.
    injection Ht as -> ->. fold healthy. rewrite Hh. done.
  - intros Hn Hh. destruct (Z.to_nat n) as [|k] eqn:Hk; [lia|].
    destruct (attempts_unhealthy k 1 n s Hh) as (Hres & Hto & _); [lia|].
    split; [exact Hres|]. rewrite Hto. do 3 f_equal. lia.
Qed.

(** X20.  After [closeAllConnections] both health checks fail, and
    [initializeConnections] does not bring the connections back: it throws
    whatever the number of attempts. *)
Theorem closed_connections_are_unhealthy s :
  RedisManager.reachable (redis s) = true ->
  let s' := snd (closeAllConnections s) in
  fst (closeAllConnections s) = inr tt /\
  fst (testConnections s') = (false, false) /\
  forall k, (0 < k)%Z ->
    fst (initializeConnections (Some k) s') = inl (ConnectionsNotEstablished k).
Proof.
  intros Hr s'.
  assert (Hs' : fst (closeAllConnections s) = inr tt /\ pool (postgresql s') = false /\
                RedisManager.client (redis s') = false).
  { subst s'. unfold closeAllConnections, RedisManager.close, close. unfold_monad.
    rewrite Hr. destruct (pool (postgresql s)) eqn:Hp,
                         (RedisManager.client (redis s)) eqn:Hc; simpl; rewrite ?Hp; done. }
  destruct Hs' as (Hok & Hp & Hc). split; [exact Hok|].
  destruct (testConnections_run s') as (Ht & _). split.
  - rewrite Ht, Hp, Hc. done.
  - intros k Hk. unfold initializeConnections. simpl.
    destruct (Z.to_nat k) as [|j] eqn:Hj; [lia|].
    destruct (attempts_unhealthy j 1 k s') as (Hres & _); [by rewrite Hp|lia|exact Hres].
Qed.
End ConnectionsFacts.

Section ScriptFacts.
End ScriptFacts.

(** * The further properties on concrete runs *)

Import SampleRuns Cli PoolConfiguration.

(** X1 for the health-check query. *)
Lemma query_releases_client_witness :
  leased (snd (query (P := platform) "SELECT 1 as health_check" client_select_1
                     (world true None))) = 0%nat /\
  (forall c, fst (query (P := platform) "SELECT 1 as health_check" client_select_1
                        (world true None)) <> Exit c).
Proof.
  apply (@query_releases_client platform unit "SELECT 1 as health_check"
           client_select_1 (world true None)).
  - intros w0. reflexivity.
  - intros w0 c. discriminate.
Defined.

(** X2 for a callback that fails. *)
Lemma transaction_releases_client_witness :
  let w := world true (Some []) in
  leased (snd (transaction (P := platform) (client_script "BROKEN") w)) = leased w /\
  snapshot (snd (transaction (P := platform) (client_script "BROKEN") w)) = None.
Proof.
  intros w.
  apply (@transaction_releases_client platform unit (client_script "BROKEN") w).
  - intros w0. unfold client_script. simpl. by destruct (snapshot w0).
  - intros w0 c. discriminate.
  - reflexivity.
Defined.

(** X4 on a server that does not answer. *)
Lemma unavailable_pool_runs_nothing_witness :
  exists w',
    transaction (P := platform) (client_script "CREATE TABLE bots") (world false None) =
      (Throw ConnectionError, w') /\
    frame w' = frame (world false None) /\ leased w' = 0%nat.
Proof.
  apply (proj1 (@unavailable_pool_runs_nothing platform unit
                  (client_script "CREATE TABLE bots") "" (world false None) eq_refl)).
Defined.

(** X5 on a database without a tracking table. *)
Lemma createMigrationsTable_idempotent_witness :
  let w1 := snd (createMigrationsTable (P := platform) (world true None)) in
  schema_migrations (db w1) = Some [] /\
  frame (snd (createMigrationsTable w1)) = frame w1.
Proof.
  intros w1.
  destruct (@createMigrationsTable_idempotent platform (world true None))
    as (_ & _ & H1 & _ & H2); [reflexivity|reflexivity|].
  split; [exact H1|exact H2].
Defined.

(** X6 on a catalog whose second unit has no file. *)
Lemma unreadable_unit_stops_the_run_witness :
  exists w',
    migrate (P := platform) local_context (catalog ++ [unit_missing; unit_002])
            (world true None) = (Exit 1, w').
Proof.
  apply (proj2 (@unreadable_unit_stops_the_run platform local_context unit_missing
                  eq_refl)).
  - vm_compute. auto.
  - reflexivity.
  - reflexivity.
Defined.

(** X7 on a database with two tracking rows. *)
Lemma status_reads_only_witness :
  exists r w',
    status (P := platform) (catalog ++ [unit_002]) retired_world = (r, w') /\
    db w' = db retired_world /\
    exists appliedMigrations pendingMigrations,
      r = Ok (appliedMigrations, pendingMigrations) /\
      pendingMigrations `sublist_of` (catalog ++ [unit_002]) /\ pool w' = false.
Proof.
  destruct (@status_reads_only platform (catalog ++ [unit_002]) retired_world eq_refl)
    as (r & w' & Heq & _ & _ & Hrows & Hcases).
  exists r, w'. split; [exact Heq|]. split; [|exact Hcases].
  apply (Hrows [row_999; row_001 "sha256:CREATE TABLE users"]). reflexivity.
Defined.

(** X11 on an empty, reachable database. *)
Lemma main_migrate_never_exits_zero_witness :
  fst <$> main (P := platform) (Nd := node) catalog port_toString [] local_env []
               (world true None) = Some (Exit 1).
Proof.
  destruct (main (P := platform) (Nd := node) catalog port_toString [] local_env []
                 (world true None)) as [[r w']|] eqn:H.
  - simpl. f_equal.
    apply (@main_migrate_never_exits_zero platform node catalog port_toString
             [] local_env [] (world true None) r w'); [reflexivity|reflexivity|exact H].
  - vm_compute in H. discriminate.
Defined.

(** X12 on an empty, reachable database: exit code 0 with the password
    set, exit code 1 without it. *)
Lemma main_status_exit_code_witness :
  (exists w',
     migrate_ts (P := platform) (Nd := node) catalog port_toString None ["status"]
                docker_env [] (world true None) = Some (Exit 0, w') /\
     schema (db w') = []) /\
  migrate_ts (P := platform) (Nd := node) catalog port_toString None ["status"]
             local_env [] (world true None) = Some (Exit 1, world true None).
Proof.
  split.
  - destruct (@main_status_exit_code platform node catalog port_toString None ["status"]
                docker_env [] (world true None)) as (w' & Heq & _ & Hs & _);
      [reflexivity|vm_compute; reflexivity|].
    exists w'. split; [exact Heq|exact Hs].
  - destruct (@main_status_exit_code platform node catalog port_toString None ["status"]
                local_env [] (world true None)) as (w' & Heq & Hw & _);
      [reflexivity|vm_compute; reflexivity|].
    rewrite (Hw eq_refl) in Heq. exact Heq.
Defined.

(** X13 at MIGRATION_ENV=prod. *)
Lemma main_refuses_without_touching_the_database_witness :
  main (P := platform) (Nd := node) catalog port_toString ["migrate"]
       {[ "MIGRATION_ENV" := "prod" ]} [] (world true None) =
    Some (Exit 1, world true None).
Proof.
  apply (proj1 (@main_refuses_without_touching_the_database platform node catalog
                  port_toString ["migrate"] {[ "MIGRATION_ENV" := "prod" ]} []
                  (world true None))).
  vm_compute. discriminate.
Defined.

(** X10 for the default local configuration. *)
Lemma migrator_pool_configuration_witness :
  exists config env'',
    new_DatabaseMigrator (Nd := node) port_toString local_context local_env =
      inr (config, env'') /\
    pool_password config = "dev_password" /\ pool_ssl config = None.
Proof.
  destruct (@migrator_pool_configuration node port_toString local_env local_context
              local_env) as (config & env'' & Heq & _ & _ & _ & Hpw & _ & _ & Hssl).
  - vm_compute. reflexivity.
  - exists config, env''. split; [exact Heq|]. split; [exact Hpw|exact Hssl].
Defined.

(** X9 with a line waiting on the input. *)
Lemma shipped_configuration_never_prompts_witness :
  promptConfirmation local_context [code_units "no"] = (Some true, [code_units "no"]).
Proof.
  apply (@shipped_configuration_never_prompts node local_env local_context local_env).
  vm_compute. reflexivity.
Defined.

(** X8 on a reachable database. *)
Lemma initializeAPPIData_is_not_atomic_witness :
  exists r w',
    initializeAPPIData (P := platform) local_context (world true (Some [])) = (r, w') /\
    pool w' = false /\ schema_migrations (db w') = Some [].
Proof.
  destruct (@initializeAPPIData_is_not_atomic platform local_context
              (world true (Some []))) as (r & w' & Heq & Hp & Ht & _);
    [reflexivity|reflexivity|reflexivity|].
  exists r, w'. split; [exact Heq|]. split; [exact Hp|exact Ht].
Defined.

(** X14: a session of 60 seconds, read after 59 and after 60. *)
Lemma session_round_trip_witness :
  let r' := snd (RedisManager.setSession (J := json) "abc" "alice" (Some 60%Z)
                   empty_redis) in
  fst (RedisManager.getSession (J := json) "abc" (RedisManager.elapse 59 r')) =
    inr (Some "alice") /\
  fst (RedisManager.getSession (J := json) "abc" (RedisManager.elapse 60 r')) =
    inr None.
Proof.
  intros r'. split.
  - apply (proj2 (@session_round_trip json "abc" "alice" (Some 60%Z) empty_redis 59
                    eq_refl eq_refl eq_refl ltac:(discriminate) ltac:(reflexivity))).
  - apply (proj2 (@session_round_trip json "abc" "alice" (Some 60%Z) empty_redis 60
                    eq_refl eq_refl eq_refl ltac:(discriminate) ltac:(reflexivity))).
Defined.

(** X15 after a billion seconds. *)
Lemma session_with_ttl_zero_never_expires_witness :
  fst (RedisManager.getSession (J := json) "abc"
         (RedisManager.elapse 1000000000
            (snd (RedisManager.setSession (J := json) "abc" "alice" (Some 0%Z)
                    empty_redis)))) = inr (Some "alice").
Proof.
  apply (proj1 (@session_with_ttl_zero_never_expires json "abc" "alice" empty_redis
                  eq_refl eq_refl eq_refl ltac:(discriminate))).
Defined.

(** X17 on a session just stored. *)
Lemma deleteSession_removes_one_session_witness :
  let r := snd (RedisManager.setSession (J := json) "abc" "alice" None empty_redis) in
  fst (RedisManager.getSession (J := json) "abc"
         (RedisManager.elapse 1 (snd (RedisManager.deleteSession "abc" r)))) = inr None.
Proof.
  intros r.
  apply (proj1 (proj2 (@deleteSession_removes_one_session json "abc" r
                         eq_refl eq_refl))).
Defined.

(** X18 on a server that answers. *)
Lemma closed_redis_client_refuses_witness :
  let r' := snd (RedisManager.close empty_redis) in
  RedisManager.get "session:abc" r' = (inl RedisManager.ClientNotInitialized, r').
Proof.
  intros r'.
  apply (proj1 (proj2 (@closed_redis_client_refuses "session:abc" "" None empty_redis
                         eq_refl))).
Defined.

(** X19 with the default of 3 attempts and the database down. *)
Lemma initializeConnections_retries_witness :
  let result := Connections.initializeConnections (P := platform) None singletons in
  fst result = inl (Connections.ConnectionsNotEstablished 3) /\
  Connections.timeouts (snd result) = [2000; 4000]%Z.
Proof.
  apply (proj2 (proj2 (@initializeConnections_retries platform None singletons)));
    reflexivity.
Defined.

(** X20. *)
Lemma closed_connections_are_unhealthy_witness :
  fst (Connections.testConnections (P := platform)
         (snd (Connections.closeAllConnections singletons))) = (false, false).
Proof.
  apply (proj1 (proj2 (@closed_connections_are_unhealthy platform singletons eq_refl))).
Defined.

